(** * crypto-daily-news: the aggregation pipeline of [app.js]

    A shallow embedding of the class [CryptoNewsApp]: the three source
    adapters, the fetch cycle (merge, sort, dedup), the filter stage and the
    single-flight guard, followed by the properties of the specification.

    Conventions of the embedding.
    - A JavaScript string is a [string]; each character stands for one UTF-16
      code unit in the range U+0000..U+00FF.
    - A value parsed from JSON is a [value]; JSON numbers are integers.
    - A JavaScript exception is the [Throw] case of [completion]; code that
      mutates the controller and may throw runs in [action], where the
      mutations made before a throw persist.
    - What the host (the JavaScript engine) decides and the program does not,
      is a field of the class [Host]. *)

From Stdlib Require Import ZArith String Ascii List Bool Lia.
From stdpp Require Import base decidable option list strings gmap pretty sorting.

Local Open Scope string_scope.
Local Open Scope list_scope.
Local Open Scope Z_scope.

(** ** Exceptions *)

Inductive error := TypeError | RangeError | SyntaxError.

Inductive completion (A : Type) :=
  | Normal (a : A)
  | Throw (e : error).
Arguments Normal {A} a.
Arguments Throw {A} e.

#[global] Instance completion_ret : MRet completion := λ A a, Normal a.
#[global] Instance completion_bind : MBind completion := λ A B f m,
  match m with
  | Normal a => f a
  | Throw e => Throw e
  end.

#[global] Instance completion_fmap : FMap completion := λ A B f m,
  match m with
  | Normal a => Normal (f a)
  | Throw e => Throw e
  end.

(** [try { body } catch (error) { handler }] *)
Definition try_catch {A} (body : completion A) (handler : error → completion A)
  : completion A :=
  match body with
  | Normal a => Normal a
  | Throw e => handler e
  end.

Definition returns {A} (m : completion A) : Prop := ∃ a, m = Normal a.
Definition throws {A} (m : completion A) : Prop := ∃ e, m = Throw e.

(** ** Values *)

#[warnings="-register-all"]
Inductive value :=
  | VUndefined
  | VNull
  | VBool (b : bool)
  | VNum (n : Z)
  | VStr (s : string)
  | VArr (elements : list value)
  | VObj (properties : list (string * value)).

(** Truthiness, as tested by [if (v)], [v ? a : b] and [v || w]. *)
Definition truthy (v : value) : bool :=
  match v with
  | VUndefined | VNull => false
  | VBool b => b
  | VNum n => negb (n =? 0)
  | VStr s => negb (String.eqb s "")
  | VArr _ | VObj _ => true
  end.

Definition nullish (v : value) : bool :=
  match v with
  | VUndefined | VNull => true
  | _ => false
  end.

(** [v || w] *)
Definition or_else (v w : value) : value := if truthy v then v else w.
Infix "|||" := or_else (at level 50, left associativity).

Fixpoint assoc (k : string) (props : list (string * value)) : option value :=
  match props with
  | [] => None
  | (k', v) :: props' => if String.eqb k k' then Some v else assoc k props'
  end.

Definition own_property (k : string) (v : value) : option value :=
  match v with
  | VObj props => assoc k props
  | _ => None
  end.

(** [o.k] for the property names the program reads ([Data], [title],
    [body], ...): none of them is defined on a prototype, so on anything but
    an object with that own property the read gives [undefined]; on
    [undefined] and [null] it throws. The properties of an object are listed
    with the binding in force first. *)
Definition get (o : value) (k : string) : completion value :=
  match o with
  | VUndefined | VNull => Throw TypeError
  | _ => Normal (default VUndefined (own_property k o))
  end.

(** [o?.k] *)
Definition get_opt (o : value) (k : string) : completion value :=
  if nullish o then Normal VUndefined else get o k.

(** [o?.[0]] *)
Definition get_opt_0 (o : value) : value :=
  match o with
  | VArr (x :: _) => x
  | VStr (String c _) => VStr (String c "")
  | VObj props => default VUndefined (assoc "0" props)
  | _ => VUndefined
  end.

(** ** Strings *)

Definition code_unit (c : ascii) : N := N_of_ascii c.

(** [toLowerCase] on one code unit of the range: A-Z and the capital
    letters of Latin-1 (U+00C0..U+00DE but the multiplication sign) move by
    32; every other code unit is its own lower case. *)
Definition lower_unit (c : ascii) : ascii :=
  let n := code_unit c in
  if ((65 <=? n) && (n <=? 90) ||
      (192 <=? n) && (n <=? 222) && negb (n =? 215))%N
  then ascii_of_N (n + 32) else c.

Fixpoint toLowerCase (s : string) : string :=
  match s with
  | "" => ""
  | String c s' => String (lower_unit c) (toLowerCase s')
  end.

(** White space and line terminators of the range, as [trim] strips them. *)
Definition is_white (c : ascii) : bool :=
  let n := code_unit c in
  ((9 <=? n) && (n <=? 13) || (n =? 32) || (n =? 160))%N.

Fixpoint trimStart (s : string) : string :=
  match s with
  | "" => ""
  | String c s' => if is_white c then trimStart s' else s
  end.

Fixpoint string_rev_append (s acc : string) : string :=
  match s with
  | "" => acc
  | String c s' => string_rev_append s' (String c acc)
  end.
Definition string_rev (s : string) : string := string_rev_append s "".

Definition trimEnd (s : string) : string := string_rev (trimStart (string_rev s)).
Definition trim (s : string) : string := trimEnd (trimStart s).

(** [s.substring(start, stop)]: the arguments are swapped when out of order
    and the result stops at the end of [s]. *)
Definition substring (start stop : nat) (s : string) : string :=
  String.substring (Nat.min start stop) (Nat.max start stop - Nat.min start stop) s.

(** [hay.includes(needle)] *)
Fixpoint includes (hay needle : string) : bool :=
  String.prefix needle hay ||
  match hay with
  | "" => false
  | String _ hay' => includes hay' needle
  end.

(** [s.split(sep)] for a separator of one code unit. *)
Fixpoint split (sep : ascii) (s : string) : list string :=
  match s with
  | "" => [""]
  | String c s' =>
      if Ascii.eqb c sep then "" :: split sep s'
      else match split sep s' with
           | piece :: pieces => String c piece :: pieces
           | [] => [String c ""]
           end
  end.

(** [ToString]: what a template literal and [+] with a string make of a
    value. An object with an own property [toString] has no callable
    conversion left (a JSON value is never a function) and throws; any other
    object is ["[object Object]"]; an array is its elements joined by
    commas. *)
Definition object_string (props : list (string * value)) : completion string :=
  match assoc "toString" props with
  | Some _ => Throw TypeError
  | None => Normal "[object Object]"
  end.

Fixpoint ToString (v : value) : completion string :=
  match v with
  | VUndefined => Normal "undefined"
  | VNull => Normal "null"
  | VBool b => Normal (if b then "true" else "false")
  | VNum n => Normal (pretty n)
  | VStr s => Normal s
  | VArr l =>
      (fix join_elements (l : list value) : completion string :=
         match l with
         | [] => Normal ""
         | x :: l' =>
             s ← (if nullish x then Normal "" else ToString x);
             match l' with
             | [] => Normal s
             | _ => r ← join_elements l'; Normal (s +:+ "," +:+ r)
             end
         end) l
  | VObj props => object_string props
  end.

(** [list.join(sep)] *)
Fixpoint join (sep : string) (l : list value) : completion string :=
  match l with
  | [] => Normal ""
  | x :: l' =>
      s ← (if nullish x then Normal "" else ToString x);
      match l' with
      | [] => Normal s
      | _ => r ← join sep l'; Normal (s +:+ sep +:+ r)
      end
  end.

(** Method calls on a value that may not be a string: [v.substring(a, b)],
    [v.toLowerCase()], [v.split(sep)]. On anything but a string the method
    is missing or not callable and the call throws. *)
Definition call_substring (v : value) (start stop : nat) : completion string :=
  match v with
  | VStr s => Normal (substring start stop s)
  | _ => Throw TypeError
  end.

Definition call_toLowerCase (v : value) : completion string :=
  match v with
  | VStr s => Normal (toLowerCase s)
  | _ => Throw TypeError
  end.

Definition call_split (v : value) (sep : ascii) : completion (list value) :=
  match v with
  | VStr s => Normal (VStr <$> split sep s)
  | _ => Throw TypeError
  end.

(** [v?.substring(a, b)] *)
Definition call_opt_substring (v : value) (start stop : nat) : completion value :=
  if nullish v then Normal VUndefined else VStr <$> call_substring v start stop.

(** [l.map(callback)]; the callback may throw, which ends the traversal. *)
Fixpoint Array_map {A B} (callback : nat → A → completion B) (i : nat) (l : list A)
  : completion (list B) :=
  match l with
  | [] => Normal []
  | x :: l' =>
      y ← callback i x;
      ys ← Array_map callback (S i) l';
      Normal (y :: ys)
  end.

(** [v.map(callback)] on a value: only an array has [map]. *)
Definition call_map {B} (v : value) (callback : nat → value → completion B)
  : completion (list B) :=
  match v with
  | VArr l => Array_map callback 0%nat l
  | _ => Throw TypeError
  end.

(** ** The host *)

(** Conversions the engine provides and whose results the program only
    passes on: upper-casing (which leaves the range of code units), the
    numeric value of a string ([None] is NaN), the time value of a date
    string ([None] is an invalid date) and the ISO-8601 text of a time
    value. *)
Class Host := {
  toUpperCase : string → string;
  StringToNumber : string → option Z;
  Date_parse : string → option Z;
  Date_toISOString : Z → string
}.

(** What differs from one call to the next: the clock read by
    [new Date()] and the draw [Math.floor(Math.random() * 5)], each indexed
    by the record being mapped. *)
Record ambient := {
  now : nat → Z;
  random : nat → nat
}.

Section Program.
Context `{Host}.

Definition call_toUpperCase (v : value) : completion string :=
  match v with
  | VStr s => Normal (toUpperCase s)
  | _ => Throw TypeError
  end.

(** [ToNumber]; [None] is NaN. *)
Definition ToNumber (v : value) : completion (option Z) :=
  match v with
  | VUndefined => Normal None
  | VNull => Normal (Some 0)
  | VBool b => Normal (Some (if b then 1 else 0))
  | VNum n => Normal (Some n)
  | VStr s => Normal (StringToNumber s)
  | VArr _ | VObj _ => s ← ToString v; Normal (StringToNumber s)
  end.

(** A [Date] is its time value in milliseconds; [None] is the invalid
    date. *)
Definition TimeClip (t : option Z) : option Z :=
  match t with
  | Some n => if Z.abs n <=? 8640000000000000 then Some n else None
  | None => None
  end.

(** [new Date(v)] *)
Definition Date_new (v : value) : completion (option Z) :=
  match v with
  | VStr s => Normal (Date_parse s)
  | VArr _ | VObj _ => s ← ToString v; Normal (Date_parse s)
  | _ => TimeClip <$> ToNumber v
  end.

(** [date.toISOString()] *)
Definition toISOString (date : option Z) : completion string :=
  match date with
  | Some t => Normal (Date_toISOString t)
  | None => Throw RangeError
  end.

(** [d1 - d2] on dates: NaN as soon as one of them is invalid. *)
Definition Date_minus (d1 d2 : option Z) : option Z :=
  match d1, d2 with
  | Some t1, Some t2 => Some (t1 - t2)
  | _, _ => None
  end.

(** ** Articles *)

Record article := {
  title : value;
  description : value;
  url : value;
  imageUrl : value;
  source : value;
  publishedAt : value;
  categories : list value
}.

Definition placeholders : list string := [
  "https://images.unsplash.com/photo-1518546305927-5a555bb7020d?w=400&h=200&fit=crop";
  "https://images.unsplash.com/photo-1621761191319-c6fb62004040?w=400&h=200&fit=crop";
  "https://images.unsplash.com/photo-1639762681485-074b7f938ba0?w=400&h=200&fit=crop";
  "https://images.unsplash.com/photo-1622630998477-20aa696ecb05?w=400&h=200&fit=crop";
  "https://images.unsplash.com/photo-1516245834210-c4c142787335?w=400&h=200&fit=crop"
].

(** [getPlaceholderImage()], given the draw. *)
Definition getPlaceholderImage (draw : nat) : value :=
  default VUndefined (VStr <$> placeholders !! draw).

(** ** Fetching *)

Record response := {
  status : Z;
  body : option value   (* [None]: the body is not JSON *)
}.

Inductive fetch_outcome :=
  | failed_to_fetch
  | responded (r : response).

(** [await fetch(url)] *)
Definition fetch (o : fetch_outcome) : completion response :=
  match o with
  | failed_to_fetch => Throw TypeError
  | responded r => Normal r
  end.

(** [await response.json()] *)
Definition json (r : response) : completion value :=
  match body r with
  | Some data => Normal data
  | None => Throw SyntaxError
  end.

(** ** Source adapters *)

Definition cryptoCompare_record (w : ambient) (i : nat) (raw : value)
  : completion article :=
  title_ ← get raw "title";
  body_ ← get raw "body";
  description_ ←
    (if truthy body_
     then s ← call_substring body_ 0 200; Normal (VStr (s +:+ "..."))
     else Normal (VStr ""));
  url_ ← get raw "url";
  imageurl ← get raw "imageurl";
  source_info ← get raw "source_info";
  name ← get_opt source_info "name";
  source_ ← get raw "source";
  published_on ← get raw "published_on";
  seconds ← ToNumber published_on;
  publishedAt_ ← toISOString (TimeClip ((λ n, n * 1000) <$> seconds));
  categories_ ← get raw "categories";
  tags ← (if truthy categories_ then call_split categories_ "|" else Normal []);
  Normal {|
    title := title_;
    description := description_;
    url := url_;
    imageUrl := imageurl ||| getPlaceholderImage (random w i);
    source := name ||| source_ ||| VStr "CryptoCompare";
    publishedAt := VStr publishedAt_;
    categories := tags
  |}.

(** The [try] block of [fetchCryptoCompareNews]. *)
Definition cryptoCompare_try (w : ambient) (o : fetch_outcome)
  : completion (list article) :=
  response ← fetch o;
  data ← json response;
  Data ← get data "Data";
  if truthy Data then call_map Data (cryptoCompare_record w) else Normal [].

Definition fetchCryptoCompareNews (w : ambient) (o : fetch_outcome)
  : completion (list article) :=
  try_catch (cryptoCompare_try w o) (λ _, Normal []).

(** [v.slice(start, stop)]: arrays and strings both have [slice]. *)
Definition call_slice (v : value) (start stop : nat) : completion value :=
  match v with
  | VArr l => Normal (VArr (take (stop - start) (drop start l)))
  | VStr s => Normal (VStr (substring start stop s))
  | _ => Throw TypeError
  end.

Definition coinGecko_record (w : ambient) (i : nat) (raw : value)
  : completion article :=
  item ← get raw "item";
  name ← get item "name";
  name_text ← ToString name;
  symbol ← get item "symbol";
  SYMBOL ← call_toUpperCase symbol;
  market_cap_rank ← get item "market_cap_rank";
  rank_text ← ToString (market_cap_rank ||| VStr "N/A");
  id ← get item "id";
  id_text ← ToString id;
  large ← get item "large";
  thumb ← get item "thumb";
  Normal {|
    title := VStr (name_text +:+ " (" +:+ SYMBOL +:+ ") is Trending!");
    description :=
      VStr (name_text +:+
            " is currently trending on CoinGecko. Market Cap Rank: #" +:+
            rank_text);
    url := VStr ("https://www.coingecko.com/en/coins/" +:+ id_text);
    imageUrl := large ||| thumb ||| getPlaceholderImage (random w i);
    source := VStr "CoinGecko Trending";
    publishedAt := VStr (Date_toISOString (now w i));
    categories := [VStr "trending"; VStr "market"]
  |}.

(** The [try] block of [fetchCoinGeckoNews]. *)
Definition coinGecko_try (w : ambient) (o : fetch_outcome)
  : completion (list article) :=
  response ← fetch o;
  data ← json response;
  coins ← get data "coins";
  if truthy coins
  then first5 ← call_slice coins 0 5; call_map first5 (coinGecko_record w)
  else Normal [].

Definition fetchCoinGeckoNews (w : ambient) (o : fetch_outcome)
  : completion (list article) :=
  try_catch (coinGecko_try w o) (λ _, Normal []).

Definition statusUpdate_record (w : ambient) (i : nat) (raw : value)
  : completion article :=
  project ← get raw "project";
  name ← get_opt project "name";
  description_ ← get raw "description";
  title_ ←
    (if truthy name
     then name_text ← ToString name;
          short ← call_opt_substring description_ 0 60;
          short_text ← ToString (short ||| VStr "Update");
          Normal (VStr (name_text +:+ ": " +:+ short_text +:+ "..."))
     else short ← call_opt_substring description_ 0 80;
          Normal (short ||| VStr "Crypto Update"));
  links ← get_opt project "links";
  homepage ← get_opt links "homepage";
  image ← get_opt project "image";
  large ← get_opt image "large";
  created_at ← get raw "created_at";
  category ← get raw "category";
  Normal {|
    title := title_;
    description := description_ ||| VStr "";
    url := get_opt_0 homepage ||| VStr "#";
    imageUrl := large ||| getPlaceholderImage (random w i);
    source := name ||| VStr "Crypto Project";
    publishedAt := created_at ||| VStr (Date_toISOString (now w i));
    categories := [category ||| VStr "update"]
  |}.

(** The [try] block of [fetchAlternativeNews]. *)
Definition statusUpdate_try (w : ambient) (o : fetch_outcome)
  : completion (list article) :=
  response ← fetch o;
  data ← json response;
  status_updates ← get data "status_updates";
  if truthy status_updates
  then call_map status_updates (statusUpdate_record w)
  else Normal [].

Definition fetchAlternativeNews (w : ambient) (o : fetch_outcome)
  : completion (list article) :=
  try_catch (statusUpdate_try w o) (λ _, Normal []).

(** [Promise.allSettled] turns the completion of each adapter into a
    settled result. *)
Inductive settled :=
  | fulfilled (value_ : list article)
  | rejected (reason : error).

Definition settle (c : completion (list article)) : settled :=
  match c with
  | Normal v => fulfilled v
  | Throw e => rejected e
  end.

(** ** Array.prototype.sort *)

(** The number the sort makes of a comparator's result: NaN counts as 0. *)
Definition SortCompare (c : option Z) : Z := default 0 c.

Fixpoint sort_insert {A} (comparefn : A → A → completion (option Z)) (x : A)
  (sorted : list A) : completion (list A) :=
  match sorted with
  | [] => Normal [x]
  | y :: sorted' =>
      c ← comparefn x y;
      if SortCompare c <=? 0 then Normal (x :: y :: sorted')
      else rest ← sort_insert comparefn x sorted'; Normal (y :: rest)
  end.

(** The sort is stable, as the language requires; it is an insertion sort
    here. When the comparator throws, the sort throws and the array keeps
    its elements as they were. *)
Fixpoint Array_sort {A} (comparefn : A → A → completion (option Z)) (l : list A)
  : completion (list A) :=
  match l with
  | [] => Normal []
  | x :: l' => sorted ← Array_sort comparefn l'; sort_insert comparefn x sorted
  end.

(** [(a, b) => new Date(b.publishedAt) - new Date(a.publishedAt)] *)
Definition newest_first (a b : article) : completion (option Z) :=
  date_b ← Date_new (publishedAt b);
  date_a ← Date_new (publishedAt a);
  Normal (Date_minus date_b date_a).

(** ** Array.prototype.filter *)

Fixpoint Array_filter {A} (callback : A → completion bool) (l : list A)
  : completion (list A) :=
  match l with
  | [] => Normal []
  | x :: l' =>
      keep ← callback x;
      rest ← Array_filter callback l';
      Normal (if keep : bool then x :: rest else rest)
  end.

(** [filter] with a callback that reads and updates a variable of the
    enclosing function. *)
Fixpoint Array_filter_closure {S A} (callback : S → A → completion (bool * S))
  (captured : S) (l : list A) : completion (list A) :=
  match l with
  | [] => Normal []
  | x :: l' =>
      '(keep, captured') ← callback captured x;
      rest ← Array_filter_closure callback captured' l';
      Normal (if keep : bool then x :: rest else rest)
  end.

(** ** removeDuplicates *)

Definition dedup_callback (seen : gset string) (a : article)
  : completion (bool * gset string) :=
  lowered ← call_toLowerCase (title a);
  let key := substring 0 50 lowered in
  if decide (key ∈ seen) then Normal (false, seen)
  else Normal (true, {[key]} ∪ seen).

Definition removeDuplicates (news : list article) : completion (list article) :=
  Array_filter_closure dedup_callback ∅ news.

(** ** The filter stage *)

Definition category_matches (filter : string) (a : article) : completion bool :=
  title_text ← ToString (title a);
  description_text ← ToString (description a);
  tags ← join " " (categories a);
  let searchText :=
    toLowerCase (title_text +:+ " " +:+ description_text +:+ " " +:+ tags) in
  Normal (includes searchText (toLowerCase filter)).

Definition search_matches (searchTerm : string) (a : article) : completion bool :=
  title_text ← ToString (title a);
  description_text ← ToString (description a);
  source_text ← ToString (source a);
  let searchText :=
    toLowerCase (title_text +:+ " " +:+ description_text +:+ " " +:+ source_text) in
  Normal (includes searchText searchTerm).

(** The list [filterNews] hands to [renderNews]. *)
Definition applyFilters (news : list article) (filter : string) (search : string)
  : completion (list article) :=
  filtered ←
    (if decide (filter ≠ "all") then Array_filter (category_matches filter) news
     else Normal news);
  let searchTerm := trim (toLowerCase search) in
  if negb (String.eqb searchTerm "")
  then Array_filter (search_matches searchTerm) filtered
  else Normal filtered.

(** ** The controller *)

(** What [newsContainer.innerHTML] was last set to. The markup of a list of
    cards is represented by the articles it shows. *)
Inductive markup :=
  | page_as_loaded
  | loading_spinner
  | error_message
  | no_results
  | news_cards (news : list article).

Record controller := {
  allNews : list article;
  currentFilter : string;
  isLoading : bool;
  searchInput : string;          (* [searchInput.value] *)
  newsContainer : markup;
  articleCount : option nat;     (* the count shown by [articleCountEl] *)
  lastUpdate : option Z          (* the time shown by [lastUpdateEl] *)
}.

Definition set_allNews (v : list article) (c : controller) : controller :=
  {| allNews := v; currentFilter := currentFilter c; isLoading := isLoading c;
     searchInput := searchInput c; newsContainer := newsContainer c;
     articleCount := articleCount c; lastUpdate := lastUpdate c |}.
Definition set_currentFilter (v : string) (c : controller) : controller :=
  {| allNews := allNews c; currentFilter := v; isLoading := isLoading c;
     searchInput := searchInput c; newsContainer := newsContainer c;
     articleCount := articleCount c; lastUpdate := lastUpdate c |}.
Definition set_isLoading (v : bool) (c : controller) : controller :=
  {| allNews := allNews c; currentFilter := currentFilter c; isLoading := v;
     searchInput := searchInput c; newsContainer := newsContainer c;
     articleCount := articleCount c; lastUpdate := lastUpdate c |}.
Definition set_searchInput (v : string) (c : controller) : controller :=
  {| allNews := allNews c; currentFilter := currentFilter c; isLoading := isLoading c;
     searchInput := v; newsContainer := newsContainer c;
     articleCount := articleCount c; lastUpdate := lastUpdate c |}.
Definition set_newsContainer (v : markup) (c : controller) : controller :=
  {| allNews := allNews c; currentFilter := currentFilter c; isLoading := isLoading c;
     searchInput := searchInput c; newsContainer := v;
     articleCount := articleCount c; lastUpdate := lastUpdate c |}.
Definition set_articleCount (v : option nat) (c : controller) : controller :=
  {| allNews := allNews c; currentFilter := currentFilter c; isLoading := isLoading c;
     searchInput := searchInput c; newsContainer := newsContainer c;
     articleCount := v; lastUpdate := lastUpdate c |}.
Definition set_lastUpdate (v : option Z) (c : controller) : controller :=
  {| allNews := allNews c; currentFilter := currentFilter c; isLoading := isLoading c;
     searchInput := searchInput c; newsContainer := newsContainer c;
     articleCount := articleCount c; lastUpdate := v |}.

(** A method of the controller: it may return or throw, and either way
    leaves the controller as its assignments made it. *)
Definition action (A : Type) : Type := controller → completion A * controller.

#[global] Instance action_ret : MRet action := λ A a c, (Normal a, c).
#[global] Instance action_bind : MBind action := λ A B f m c,
  match m c with
  | (Normal a, c') => f a c'
  | (Throw e, c') => (Throw e, c')
  end.

Definition lift {A} (m : completion A) : action A := λ c, (m, c).
Definition read {A} (field : controller → A) : action A := λ c, (Normal (field c), c).
Definition assign (update : controller → controller) : action unit :=
  λ c, (Normal (), update c).

Definition try_catch_action {A} (body : action A) (handler : error → action A)
  : action A := λ c,
  match body c with
  | (Normal a, c') => (Normal a, c')
  | (Throw e, c') => handler e c'
  end.

Fixpoint forEach {A} (l : list A) (callback : A → action unit) : action unit :=
  match l with
  | [] => mret ()
  | x :: l' => callback x;; forEach l' callback
  end.

(** [escapeHtml(text)]: assigning [textContent] converts the value to a
    string, [null] and [undefined] to the empty one. *)
Definition escapeHtml (text : value) : completion string :=
  if nullish text then Normal "" else ToString text.

(** [createNewsCard(article)]: the conversions the template makes, in its
    order; the card is represented by its article. *)
Definition createNewsCard (a : article) : completion article :=
  _ ← Date_new (publishedAt a);
  _ ← Array_map (λ _ cat, ToString cat) 0%nat (take 2 (categories a));
  _ ← ToString (url a);
  _ ← ToString (imageUrl a);
  _ ← ToString (title a);
  _ ← ToString (source a);
  _ ← escapeHtml (title a);
  _ ← escapeHtml (description a);
  Normal a.

Definition renderNews (news : list article) : action unit :=
  assign (set_articleCount (Some (length news)));;
  if decide (length news = 0%nat)
  then assign (set_newsContainer no_results)
  else cards ← lift (Array_map (λ _, createNewsCard) 0%nat news);
       assign (set_newsContainer (news_cards cards)).

Definition filterNews : action unit :=
  news ← read allNews;
  filter ← read currentFilter;
  search ← read searchInput;
  filtered ← lift (applyFilters news filter search);
  renderNews filtered.

Definition updateLastUpdate (clock : Z) : action unit :=
  assign (set_lastUpdate (Some clock)).
Definition showLoading : action unit := assign (set_newsContainer loading_spinner).
Definition showError : action unit := assign (set_newsContainer error_message).

(** ** fetchNews *)

(** The merge, one settled result at a time. A fulfilled adapter's value is
    an array, and an array is truthy. *)
Definition merge_result (result : settled) : action unit :=
  match result with
  | fulfilled value_ => assign (λ c, set_allNews (allNews c ++ value_) c)
  | rejected _ => mret ()
  end.

(** "Combine all successful results" *)
Definition merge_step (results : list settled) : action unit :=
  assign (set_allNews []);;
  forEach results merge_result.

(** "Sort by date (newest first)": the array is sorted in place. *)
Definition sort_step : action unit :=
  news ← read allNews;
  sorted ← lift (Array_sort newest_first news);
  assign (set_allNews sorted).

(** "Remove duplicates based on title similarity" *)
Definition dedup_step : action unit :=
  news ← read allNews;
  deduped ← lift (removeDuplicates news);
  assign (set_allNews deduped).

(** The [try] block of [fetchNews], from the point where the three adapters
    have settled. *)
Definition cycle_try (results : list settled) (clock : Z) : action unit :=
  merge_step results;;
  sort_step;;
  dedup_step;;
  updateLastUpdate clock;;
  filterNews.

(** [fetchNews] up to its [await]: the guard, the flag, the spinner. The
    boolean tells whether a cycle was started. *)
Definition fetchNews_start (c : controller) : controller * bool :=
  if isLoading c then (c, false)
  else ((showLoading (set_isLoading true c)).2, true).

(** [fetchNews] from its [await] on. *)
Definition fetchNews_resume (results : list settled) (clock : Z) : action unit :=
  try_catch_action (cycle_try results clock) (λ _, showError);;
  assign (set_isLoading false).

(** ** The page as a transition system *)

(** The controller and the number of [fetchNews] activations suspended at
    their [await]. *)
Record system := {
  app : controller;
  in_flight : nat
}.

(** What the three requests of one cycle came back with, and the clock when
    the cycle resumes. *)
Record exchange := {
  world : ambient;
  news_feed : fetch_outcome;
  trending_feed : fetch_outcome;
  status_feed : fetch_outcome;
  clock : Z
}.

Definition adapter_results (x : exchange) : list settled := [
  settle (fetchCryptoCompareNews (world x) (news_feed x));
  settle (fetchCoinGeckoNews (world x) (trending_feed x));
  settle (fetchAlternativeNews (world x) (status_feed x))
].

Inductive event :=
  | fetch_requested                 (* initial load, refresh click, timer tick *)
  | adapters_settled (x : exchange) (* the awaited promise resolves *)
  | search_changed (text : string)  (* [input] on the search box *)
  | filter_selected (tag : string). (* click on a filter button *)

Definition step (s : system) (e : event) : system :=
  match e with
  | fetch_requested =>
      let r := fetchNews_start (app s) in
      {| app := r.1; in_flight := if r.2 then S (in_flight s) else in_flight s |}
  | adapters_settled x =>
      match in_flight s with
      | O => s
      | S n =>
          {| app := (fetchNews_resume (adapter_results x) (clock x) (app s)).2;
             in_flight := n |}
      end
  | search_changed text =>
      {| app := (filterNews (set_searchInput text (app s))).2;
         in_flight := in_flight s |}
  | filter_selected tag =>
      {| app := (filterNews (set_currentFilter tag (app s))).2;
         in_flight := in_flight s |}
  end.

Definition run (s : system) (events : list event) : system :=
  fold_left step events s.

(** The constructor's assignments, then [init()] with its initial fetch. *)
Definition constructed : controller := {|
  allNews := [];
  currentFilter := "all";
  isLoading := false;
  searchInput := "";
  newsContainer := page_as_loaded;
  articleCount := None;
  lastUpdate := None
|}.

Definition booted : system :=
  step {| app := constructed; in_flight := 0 |} fetch_requested.

End Program.

(** ** formatDate *)

(** What the engine's calendar decides: the year of a time value in the
    local time zone, and the text of
    [date.toLocaleDateString('en-US', { month: 'short', day: 'numeric', year })],
    where the boolean tells whether [year] is ['numeric']. *)
Class Locale := {
  getFullYear : Z → Z;
  toLocaleDateString : option Z → bool → string
}.

Section Dates.
Context `{Host} `{Locale}.

(** [date.getFullYear() !== now.getFullYear()]; the year of an invalid date
    is NaN, which differs from every year. *)
Definition year_differs (date : option Z) (clock : Z) : bool :=
  match date with
  | Some t => negb (getFullYear t =? getFullYear clock)
  | None => true
  end.

(** [formatDate(dateString)], with the time value of its [new Date()]. A
    difference that is NaN fails the three comparisons. *)
Definition formatDate (dateString : value) (clock : Z) : completion string :=
  date ← Date_new dateString;
  match Date_minus (Some clock) date with
  | Some diffMs =>
      let diffMins := diffMs / 60000 in
      let diffHours := diffMs / 3600000 in
      let diffDays := diffMs / 86400000 in
      if diffMins <? 60
      then Normal (pretty diffMins +:+ " min" +:+
                   (if decide (diffMins ≠ 1) then "s" else "") +:+ " ago")
      else if diffHours <? 24
      then Normal (pretty diffHours +:+ " hour" +:+
                   (if decide (diffHours ≠ 1) then "s" else "") +:+ " ago")
      else if diffDays <? 7
      then Normal (pretty diffDays +:+ " day" +:+
                   (if decide (diffDays ≠ 1) then "s" else "") +:+ " ago")
      else Normal (toLocaleDateString date (year_differs date clock))
  | None => Normal (toLocaleDateString date (year_differs date clock))
  end.

End Dates.

(** ** A reference host

    For evaluating the program on examples: ISO-8601 dates in the two UTC
    layouts [YYYY-MM-DDTHH:mm:ss.sssZ] and [YYYY-MM-DDTHH:mm:ssZ], decimal
    integers, and upper-casing within the range of code units. *)
Module Reference.

Definition days_from_civil (y m d : Z) : Z :=
  let y' := if m <=? 2 then y - 1 else y in
  let era := y' / 400 in
  let yoe := y' - era * 400 in
  let mp := (m + 9) mod 12 in
  let doy := (153 * mp + 2) / 5 + d - 1 in
  let doe := yoe * 365 + yoe / 4 - yoe / 100 + doy in
  era * 146097 + doe - 719468.

Definition civil_from_days (days : Z) : Z * Z * Z :=
  let z := days + 719468 in
  let era := z / 146097 in
  let doe := z - era * 146097 in
  let yoe := (doe - doe / 1460 + doe / 36524 - doe / 146096) / 365 in
  let doy := doe - (365 * yoe + yoe / 4 - yoe / 100) in
  let mp := (5 * doy + 2) / 153 in
  let d := doy - (153 * mp + 2) / 5 + 1 in
  let m := if mp <? 10 then mp + 3 else mp - 9 in
  let y := yoe + era * 400 in
  (if m <=? 2 then y + 1 else y, m, d).

Definition digit (c : ascii) : option Z :=
  let n := code_unit c in
  if ((48 <=? n) && (n <=? 57))%N then Some (Z.of_N n - 48) else None.

Fixpoint digits_from (acc : Z) (s : string) : option Z :=
  match s with
  | "" => Some acc
  | String c s' => d ← digit c; digits_from (10 * acc + d) s'
  end.

Definition digits (s : string) : option Z :=
  match s with
  | "" => None
  | _ => digits_from 0 s
  end.

Definition field (start len : nat) (s : string) : option Z :=
  digits (String.substring start len s).

Definition days_in_month (y m : Z) : Z :=
  days_from_civil (if m =? 12 then y + 1 else y) (if m =? 12 then 1 else m + 1) 1
  - days_from_civil y m 1.

Definition parse_iso (s : string) : option Z :=
  let n := String.length s in
  let long := bool_decide (n = 24%nat) in
  let at_ i len := String.substring i len s in
  let frame :=
    (at_ 4 1 +:+ at_ 7 1 +:+ at_ 10 1 +:+ at_ 13 1 +:+ at_ 16 1 +:+
     (if long then at_ 19 1 +:+ at_ 23 1 else at_ 19 (n - 19)))%nat in
  y ← field 0 4 s; mo ← field 5 2 s; d ← field 8 2 s;
  h ← field 11 2 s; mi ← field 14 2 s; sec ← field 17 2 s;
  ms ← (if long then field 20 3 s else Some 0);
  if String.eqb frame (if long then "--T::.Z" else "--T::Z")
     && (1 <=? mo) && (mo <=? 12) && (1 <=? d) && (d <=? days_in_month y mo)
     && (h <=? 23) && (mi <=? 59) && (sec <=? 59)
  then Some ((((days_from_civil y mo d * 24 + h) * 60 + mi) * 60 + sec) * 1000 + ms)
  else None.

Fixpoint zeros (n : nat) : string :=
  match n with
  | O => ""
  | S n' => String "0" (zeros n')
  end.

Definition pad (width : nat) (s : string) : string :=
  zeros (width - String.length s) +:+ s.

Definition two (n : Z) : string := pad 2 (pretty n).

Definition print_iso (t : Z) : string :=
  let days := t / 86400000 in
  let rest := t mod 86400000 in
  let '(y, m, d) := civil_from_days days in
  let year :=
    if (0 <=? y) && (y <=? 9999) then pad 4 (pretty y)
    else (if y <? 0 then "-" else "+") +:+ pad 6 (pretty (Z.abs y)) in
  year +:+ "-" +:+ two m +:+ "-" +:+ two d +:+ "T" +:+
  two (rest / 3600000) +:+ ":" +:+ two (rest / 60000 mod 60) +:+ ":" +:+
  two (rest / 1000 mod 60) +:+ "." +:+ pad 3 (pretty (rest mod 1000)) +:+ "Z".

Definition parse_integer (s : string) : option Z :=
  match trim s with
  | "" => Some 0
  | String "-" s' => Z.opp <$> digits s'
  | String "+" s' => digits s'
  | s' => digits s'
  end.

(** Small letters move down by 32; the sharp s becomes SS; the micro sign
    and the y with diaeresis, whose capitals lie outside the range, stay. *)
Fixpoint upper (s : string) : string :=
  match s with
  | "" => ""
  | String c s' =>
      let n := code_unit c in
      if (n =? 223)%N then "SS" +:+ upper s'
      else if ((97 <=? n) && (n <=? 122) ||
               (224 <=? n) && (n <=? 254) && negb (n =? 247))%N
      then String (ascii_of_N (n - 32)) (upper s')
      else String c (upper s')
  end.

#[export] Instance host : Host := {|
  toUpperCase := upper;
  StringToNumber := parse_integer;
  Date_parse := parse_iso;
  Date_toISOString := print_iso
|}.

Definition calm : ambient := {| now := λ _, 1704153600000; random := λ i, (i mod 5)%nat |}.

Definition month_name (m : Z) : string :=
  default "" (["Jan"; "Feb"; "Mar"; "Apr"; "May"; "Jun";
               "Jul"; "Aug"; "Sep"; "Oct"; "Nov"; "Dec"] !! Z.to_nat (m - 1)).

(** The calendar of a page whose time zone is UTC. *)
#[export] Instance locale : Locale := {|
  getFullYear := λ t, (civil_from_days (t / 86400000)).1.1;
  toLocaleDateString := λ date with_year,
    match date with
    | None => "Invalid Date"
    | Some t =>
        let '(y, m, d) := civil_from_days (t / 86400000) in
        month_name m +:+ " " +:+ pretty d +:+
        (if with_year : bool then ", " +:+ pretty y else "")
    end
|}.

End Reference.

(** * The vocabulary of the properties *)

Section Vocabulary.
Context `{Host}.

(** What a settled result adds to the merged list. *)
Definition contribution (result : settled) : list article :=
  match result with
  | fulfilled value_ => value_
  | rejected _ => []
  end.

(** The fields on which two controllers agree when they differ only in what
    is shown. *)
Definition same_data (c c' : controller) : Prop :=
  allNews c' = allNews c ∧ currentFilter c' = currentFilter c ∧
  isLoading c' = isLoading c ∧ searchInput c' = searchInput c ∧
  lastUpdate c' = lastUpdate c.

(** The merged list: what the settled results add, in their order. *)
Definition merged (results : list settled) : list article :=
  concat (contribution <$> results).

(** The list a resumed cycle leaves in [allNews]: as far as the cycle got
    before an error, if any. *)
Definition list_left_by_cycle (results : list settled) : list article :=
  match Array_sort newest_first (merged results) with
  | Throw _ => merged results
  | Normal sorted =>
      match removeDuplicates sorted with
      | Throw _ => sorted
      | Normal deduped => deduped
      end
  end.

(** A suspended cycle exists exactly while [isLoading] is set. *)
Definition single_flight (s : system) : Prop :=
  in_flight s = (if isLoading (app s) then 1 else 0)%nat.

(** An adapter with its [try] block: the adapter always returns a list, the
    block's own when it returns, the empty one when it throws. *)
Definition fails_soft
  (adapter block : ambient → fetch_outcome → completion (list article)) : Prop :=
  ∀ w o, ∃ l, adapter w o = Normal l ∧
              (throws (block w o) → l = []) ∧
              (∀ l', block w o = Normal l' → l = l').

(** The outcomes the specification names, for an adapter that reads the
    property [key] of the payload: no response, a response of any status
    whose body is not JSON, and a JSON body without the property. *)
Definition degrades (adapter : ambient → fetch_outcome → completion (list article))
  (key : string) : Prop :=
  ∀ w,
    adapter w failed_to_fetch = Normal [] ∧
    (∀ code, adapter w (responded {| status := code; body := None |}) = Normal []) ∧
    (∀ code data, own_property key data = None →
       adapter w (responded {| status := code; body := Some data |}) = Normal []).

(** An article whose title is text, as the data model has it. *)
Definition text_title (a : article) : Prop := ∃ s, title a = VStr s.

(** The key of an article with a text title: its title in lower case, cut
    to its first 50 characters. *)
Definition dedup_key (a : article) : option string :=
  match title a with
  | VStr s => Some (substring 0 50 (toLowerCase s))
  | _ => None
  end.

(** Whether one of the first [i] articles of [news] has the key of [a]. *)
Definition earlier_with_key (news : list article) (i : nat) (a : article) : bool :=
  existsb (λ b, bool_decide (dedup_key b = dedup_key a)) (take i news).

(** The articles of [news], in order, each kept unless an earlier article
    has its key. *)
Definition first_occurrences (news : list article) : list article :=
  omap id (imap (λ i a, if earlier_with_key news i a then None else Some a) news).

(** The same, for a list [l] that comes after the articles [before]. *)
Definition kept_from (before l : list article) : list article :=
  omap id (imap (λ i a,
    if earlier_with_key (before ++ l) (length before + i) a
    then None else Some a) l).

(** The set [seen] holds the keys of the articles already visited. *)
Definition keys_seen (seen : gset string) (before : list article) : Prop :=
  ∀ k, k ∈ seen ↔ Some k ∈ dedup_key <$> before.

(** [a] is dated [t]: its [publishedAt] makes a valid date of time [t]. *)
Definition dated_at (a : article) (t : Z) : Prop :=
  Date_new (publishedAt a) = Normal (Some t).

Definition dated (a : article) : Prop := ∃ t, dated_at a t.

(** [a.publishedAt ≥ b.publishedAt], as dates. *)
Definition not_older (a b : article) : Prop :=
  ∃ ta tb, dated_at a ta ∧ dated_at b tb ∧ tb ≤ ta.

(** The text for a count and a unit: ["5 mins ago"], ["1 hour ago"]. *)
Definition ago (count : Z) (unit_ : string) : string :=
  pretty count +:+ " " +:+ unit_ +:+
  (if decide (count ≠ 1) then "s" else "") +:+ " ago".

(** A value that is a string, and one that is a string with a character. *)
Definition is_text (v : value) : Prop := ∃ s, v = VStr s.
Definition is_nonempty_text (v : value) : Prop := ∃ s, v = VStr s ∧ s ≠ "".

End Vocabulary.

(** * The program on concrete inputs *)

Module Examples.
Import Reference.

Definition story (headline : string) (date : string) : article := {|
  title := VStr headline;
  description := VStr "";
  url := VStr "#";
  imageUrl := getPlaceholderImage 0;
  source := VStr "CryptoCompare";
  publishedAt := VStr date;
  categories := [VStr "BTC"]
|}.

Definition rally : article :=
  story "Bitcoin Surges Past $50000 As Market Rallies On ETF News" "2024-01-02T00:00:00Z".
Definition rally_again : article :=
  story "BITCOIN SURGES PAST $50000 AS MARKET RALLIES ON ETF NEWS Today" "2024-01-01T00:00:00Z".
Definition upgrade : article :=
  story "Ethereum upgrade ships" "2024-01-03T12:30:00.000Z".

(** A controller whose previous cycle left one article and whose next
    cycle is in flight. *)
Definition showing_upgrade : controller :=
  (fetchNews_start (set_allNews [upgrade] constructed)).1.

Definition payload (records : list value) : fetch_outcome :=
  responded {| status := 200; body := Some (VObj [("Data", VArr records)]) |}.

(** A news feed whose single record has no [title]. *)
Definition untitled_feed : fetch_outcome :=
  payload [VObj [("body", VStr "Markets moved."); ("published_on", VNum 1704153600)]].

Definition untitled_exchange : exchange := {|
  world := calm;
  news_feed := untitled_feed;
  trending_feed := failed_to_fetch;
  status_feed := failed_to_fetch;
  clock := 1704153600000
|}.

Fixpoint letters (n : nat) : string :=
  match n with
  | O => ""
  | S n' => String "a" (letters n')
  end.

(** A news feed whose single record has a body of 250 characters. *)
Definition long_feed : fetch_outcome :=
  payload [VObj [("title", VStr "Long read"); ("body", VStr (letters 250));
                 ("published_on", VNum 1704153600)]].

Definition long_read : article := {|
  title := VStr "Long read";
  description := VStr (letters 200 +:+ "...");
  url := VUndefined;
  imageUrl := getPlaceholderImage 0;
  source := VStr "CryptoCompare";
  publishedAt := VStr "2024-01-02T00:00:00.000Z";
  categories := []
|}.

(** A trending payload of one coin, and a status payload of one update. *)
Definition pepe_feed : fetch_outcome :=
  responded {| status := 200; body := Some (VObj [("coins", VArr [
    VObj [("item", VObj [("id", VStr "pepe"); ("name", VStr "Pepe");
                         ("symbol", VStr "pepe"); ("market_cap_rank", VNum 42)])]])]) |}.

Definition release_feed : fetch_outcome :=
  responded {| status := 200; body := Some (VObj [("status_updates", VArr [
    VObj [("description", VStr "Version 2 is out");
          ("category", VStr "release");
          ("created_at", VStr "2024-01-01T08:00:00.000Z");
          ("project", VObj [("name", VStr "Aave")])]])]) |}.

(** A news payload whose second record has no [published_on]. *)
Definition half_dated : list value := [
  VObj [("title", VStr "Dated"); ("published_on", VNum 1704153600)];
  VObj [("title", VStr "Undated")]
].

Definition network_down : exchange := {|
  world := calm;
  news_feed := failed_to_fetch;
  trending_feed := failed_to_fetch;
  status_feed := failed_to_fetch;
  clock := 1704153600000
|}.

(** A trending payload of six coins. *)
Definition coin (id name symbol : string) : value :=
  VObj [("item", VObj [("id", VStr id); ("name", VStr name); ("symbol", VStr symbol)])].

Definition six_coins : fetch_outcome :=
  responded {| status := 200; body := Some (VObj [("coins", VArr [
    coin "bitcoin" "Bitcoin" "btc"; coin "ethereum" "Ethereum" "eth";
    coin "solana" "Solana" "sol"; coin "pepe" "Pepe" "pepe";
    coin "aave" "Aave" "aave"; coin "lido" "Lido" "ldo"])]) |}.






End Examples.

(** * Properties *)

Section Properties.
Context `{Host}.

(** ** Running actions *)

Lemma run_bind {A B} (m : action A) (f : A → action B) (c : controller) :
  (m ≫= f) c =
  match m c with
  | (Normal a, c') => f a c'
  | (Throw e, c') => (Throw e, c')
  end.
Proof. reflexivity. Qed.

Lemma run_assign (update : controller → controller) (c : controller) :
  assign update c = (Normal (), update c).
Proof. reflexivity. Qed.

Lemma run_read {A} (field : controller → A) (c : controller) :
  read field c = (Normal (field c), c).
Proof. reflexivity. Qed.

Lemma run_lift {A} (m : completion A) (c : controller) : lift m c = (m, c).
Proof. reflexivity. Qed.

Ltac run_action :=
  repeat (progress (rewrite ?run_bind, ?run_assign, ?run_read, ?run_lift;
                    cbv beta iota)).

(** ** The merge step *)

Lemma forEach_merge (results : list settled) (c : controller) :
  forEach results merge_result c =
  (Normal (), set_allNews (allNews c ++ concat (contribution <$> results)) c).
Proof.
  revert c. induction results as [|result results IH]; intros c; simpl.
  - rewrite app_nil_r. by destruct c.
  - rewrite run_bind.
    destruct result as [value_|reason]; simpl; rewrite IH; simpl.
    + by rewrite <- app_assoc.
    + by destruct c.
Qed.

Lemma merge_step_spec (results : list settled) (c : controller) :
  merge_step results c =
  (Normal (), set_allNews (concat (contribution <$> results)) c).
Proof.
  unfold merge_step. rewrite run_bind, run_assign, forEach_merge. reflexivity.
Qed.

(** C2: whatever the three adapters settled to, the merge step returns and
    leaves in [allNews] the outputs of the fulfilled ones, concatenated in
    the adapters' order; a rejected adapter adds nothing. *)
Theorem merge_is_concatenation_of_successes (r1 r2 r3 : settled) (c : controller) :
  (merge_step [r1; r2; r3] c).1 = Normal () ∧
  allNews (merge_step [r1; r2; r3] c).2 =
    contribution r1 ++ contribution r2 ++ contribution r3 ∧
  (∀ e, contribution (rejected e) = []) ∧
  (∀ v, contribution (fulfilled v) = v).
Proof.
  rewrite merge_step_spec. simpl. rewrite app_nil_r. done.
Qed.

(** ** Frame properties of the rendering methods *)

Lemma renderNews_frame (news : list article) (c : controller) :
  same_data c (renderNews news c).2.
Proof.
  unfold renderNews. rewrite run_bind, run_assign.
  destruct (decide (length news = 0%nat)); [done|].
  rewrite run_bind, run_lift.
  by destruct (Array_map _ _ news).
Qed.

Lemma filterNews_frame (c : controller) : same_data c (filterNews c).2.
Proof.
  unfold filterNews. run_action.
  destruct (applyFilters _ _ _); [apply renderNews_frame | done].
Qed.

(** ** The fetch cycle, step by step *)

Lemma cycle_try_unfold (results : list settled) (clock : Z) (c : controller) :
  cycle_try results clock c =
  let c1 := set_allNews (merged results) c in
  match Array_sort newest_first (merged results) with
  | Throw e => (Throw e, c1)
  | Normal sorted =>
      match removeDuplicates sorted with
      | Throw e => (Throw e, set_allNews sorted c1)
      | Normal deduped =>
          filterNews (set_lastUpdate (Some clock) (set_allNews deduped c1))
      end
  end.
Proof.
  unfold cycle_try, sort_step, dedup_step, updateLastUpdate.
  rewrite run_bind, merge_step_spec. fold (merged results). run_action.
  cbn [allNews set_allNews].
  destruct (Array_sort _ _) as [sorted|e]; [|done]. run_action.
  cbn [allNews set_allNews].
  destruct (removeDuplicates sorted) as [deduped|e]; [|done].
  by run_action.
Qed.

Lemma fetchNews_resume_unfold (results : list settled) (clock : Z) (c : controller) :
  fetchNews_resume results clock c =
  match cycle_try results clock c with
  | (Normal _, c') => (Normal (), set_isLoading false c')
  | (Throw _, c') => (Normal (), set_isLoading false (set_newsContainer error_message c'))
  end.
Proof.
  unfold fetchNews_resume, try_catch_action. rewrite run_bind.
  by destruct (cycle_try results clock c) as [[[]|e] c'].
Qed.

Lemma fetchNews_resume_ends (results : list settled) (clock : Z) (c : controller) :
  (fetchNews_resume results clock c).1 = Normal () ∧
  isLoading (fetchNews_resume results clock c).2 = false.
Proof.
  rewrite fetchNews_resume_unfold.
  by destruct (cycle_try results clock c) as [[[]|e] c'].
Qed.

(** C10: a fetch cycle that has resumed always reaches its last statement,
    on the successful path and on the path through [catch] alike: it does
    not throw, it leaves [isLoading] false, and the next request passes the
    guard and starts a cycle. *)
Theorem cycle_always_clears_isLoading (results : list settled) (clock : Z)
  (c : controller) :
  (fetchNews_resume results clock c).1 = Normal () ∧
  isLoading (fetchNews_resume results clock c).2 = false ∧
  (fetchNews_start (fetchNews_resume results clock c).2).2 = true.
Proof.
  destruct (fetchNews_resume_ends results clock c) as [Hreturns Hflag].
  split; [done|]. split; [done|].
  unfold fetchNews_start. by rewrite Hflag.
Qed.

(** ** The cycle-level error path *)

(** C1, as amended: when the [try] block of a resumed cycle throws, the
    cycle ends without throwing, the error message is what the container
    shows and [isLoading] is false; [allNews] is not put back to its former
    value but holds what the cycle had assigned when the error arose: the
    merged list if the sort threw, the sorted list if [removeDuplicates]
    threw, the deduplicated list if filtering or rendering threw. *)
Theorem aborted_cycle_shows_error_keeps_new_list (results : list settled)
  (clock : Z) (c : controller) (e : error) :
  (cycle_try results clock c).1 = Throw e →
  (fetchNews_resume results clock c).1 = Normal () ∧
  newsContainer (fetchNews_resume results clock c).2 = error_message ∧
  isLoading (fetchNews_resume results clock c).2 = false ∧
  allNews (fetchNews_resume results clock c).2 = list_left_by_cycle results.
Proof.
  rewrite fetchNews_resume_unfold, cycle_try_unfold. unfold list_left_by_cycle.
  cbv zeta.
  destruct (Array_sort _ _) as [sorted|e1]; [|done].
  destruct (removeDuplicates sorted) as [deduped|e2]; [|done].
  pose proof (filterNews_frame
    (set_lastUpdate (Some clock) (set_allNews deduped (set_allNews (merged results) c))))
    as (Hnews & _).
  destruct (filterNews _) as [[[]|e3] c']; simpl in *; [done|].
  intros _. done.
Qed.

(** ** Single flight *)

Lemma booted_single_flight : single_flight booted.
Proof. reflexivity. Qed.

Lemma step_single_flight (s : system) (e : event) :
  single_flight s → single_flight (step s e).
Proof.
  unfold single_flight. destruct s as [c n]. simpl. intros ->.
  destruct e as [|x|text|tag]; simpl.
  - unfold fetchNews_start. by destruct (isLoading c) eqn:E; simpl; rewrite ?E.
  - destruct (isLoading c) eqn:E; simpl; [|by rewrite E].
    by destruct (fetchNews_resume_ends (adapter_results x) (clock x) c)
      as (_ & ->).
  - by destruct (filterNews_frame (set_searchInput text c)) as (_ & _ & -> & _).
  - by destruct (filterNews_frame (set_currentFilter tag c)) as (_ & _ & -> & _).
Qed.

Lemma run_single_flight (events : list event) (s : system) :
  single_flight s → single_flight (run s events).
Proof.
  revert s. induction events as [|e events IH]; intros s Hs; [done|].
  apply IH, step_single_flight, Hs.
Qed.

(** C5: after any sequence of events from the initial load, at most one
    cycle is suspended, and there is one exactly while [isLoading] is set;
    and in any state with [isLoading] set, a request (timer, refresh or
    initial load) changes nothing at all: no cycle is added, and the cycle
    in flight resumes to the same state as if the request had not been
    made. *)
Theorem request_while_fetching_is_dropped (events : list event) (s : system) :
  (in_flight (run booted events) ≤ 1)%nat ∧
  single_flight (run booted events) ∧
  (isLoading (app s) = true →
   fetchNews_start (app s) = (app s, false) ∧
   step s fetch_requested = s ∧
   ∀ x, step (step s fetch_requested) (adapters_settled x) =
        step s (adapters_settled x)).
Proof.
  pose proof (run_single_flight events booted booted_single_flight) as Hsf.
  split; [|split; [done|]].
  - rewrite Hsf. destruct (isLoading _); lia.
  - intros Hloading.
    assert (step s fetch_requested = s) as Hdrop.
    { destruct s as [c n]. simpl in *. unfold fetchNews_start.
      by rewrite Hloading. }
    split; [|split; [done|]].
    + unfold fetchNews_start. by rewrite Hloading.
    + intros x. by rewrite Hdrop.
Qed.

(** ** The adapters fail soft *)

Lemma try_catch_empty (block : completion (list article)) :
  ∃ l, try_catch block (λ _, Normal []) = Normal l ∧
       (throws block → l = []) ∧
       (∀ l', block = Normal l' → l = l').
Proof.
  destruct block as [l|e]; simpl.
  - exists l. split; [done|]. split; [intros [e ?]; done | congruence].
  - exists []. done.
Qed.

Lemma get_missing (key : string) (data : value) :
  own_property key data = None →
  get data key = Throw TypeError ∨ get data key = Normal VUndefined.
Proof. intros Hnone. unfold get. rewrite Hnone. destruct data; auto. Qed.

(** C6: each of the three adapters returns a list whatever the fetch came
    back with, and the list is empty whenever its [try] block throws; in
    particular on a network error, on a body that is not JSON (whatever the
    status code) and on a payload without the expected property. *)
Theorem adapters_never_throw :
  fails_soft fetchCryptoCompareNews cryptoCompare_try ∧
  fails_soft fetchCoinGeckoNews coinGecko_try ∧
  fails_soft fetchAlternativeNews statusUpdate_try ∧
  degrades fetchCryptoCompareNews "Data" ∧
  degrades fetchCoinGeckoNews "coins" ∧
  degrades fetchAlternativeNews "status_updates".
Proof.
  repeat split; try (intros w o; apply try_catch_empty); try done.
  all: intros code data Hmissing.
  - unfold fetchCryptoCompareNews, cryptoCompare_try. simpl.
    by destruct (get_missing _ _ Hmissing) as [-> | ->].
  - unfold fetchCoinGeckoNews, coinGecko_try. simpl.
    by destruct (get_missing _ _ Hmissing) as [-> | ->].
  - unfold fetchAlternativeNews, statusUpdate_try. simpl.
    by destruct (get_missing _ _ Hmissing) as [-> | ->].
Qed.

(** ** Descriptions of the news feed *)

Lemma Array_map_lookup {A B} (callback : nat → A → completion B) (k : nat)
  (l : list A) (out : list B) (i : nat) (y : B) :
  Array_map callback k l = Normal out → out !! i = Some y →
  ∃ x, l !! i = Some x ∧ callback (k + i)%nat x = Normal y.
Proof.
  revert k out i. induction l as [|x l IH]; intros k out i; simpl.
  - intros [= <-]. done.
  - destruct (callback k x) as [y0|e] eqn:Ey; simpl; [|done].
    destruct (Array_map callback (S k) l) as [ys|e] eqn:Eys; simpl; [|done].
    intros [= <-]. destruct i as [|i]; simpl.
    + intros [= <-]. exists x. by rewrite Nat.add_0_r.
    + intros Hy. destruct (IH _ _ _ Eys Hy) as (x' & Hx' & Hcall).
      exists x'. split; [done|]. by rewrite Nat.add_succ_r.
Qed.

Lemma string_length_app (s1 s2 : string) :
  String.length (s1 +:+ s2) = (String.length s1 + String.length s2)%nat.
Proof.
  induction s1 as [|c s1 IH]; [done|].
  change (S (String.length (s1 +:+ s2)) =
          S (String.length s1 + String.length s2)%nat).
  by rewrite IH.
Qed.

Lemma string_length_substring_0 (n : nat) (s : string) :
  (String.length (String.substring 0 n s) ≤ n)%nat.
Proof.
  revert s. induction n as [|n IH]; intros [|c s]; simpl; try lia.
  specialize (IH s). lia.
Qed.

Lemma cryptoCompare_record_description (w : ambient) (i : nat) (raw : value)
  (a : article) :
  cryptoCompare_record w i raw = Normal a →
  ∃ body_, get raw "body" = Normal body_ ∧
    ((truthy body_ = false ∧ description a = VStr "") ∨
     (∃ text, body_ = VStr text ∧ text ≠ "" ∧
        description a = VStr (substring 0 200 text +:+ "..."))).
Proof.
  unfold cryptoCompare_record.
  destruct (get raw "title") as [title_|]; simpl; [|done].
  destruct (get raw "body") as [body_|]; simpl; [|done].
  intros Hrecord. exists body_. split; [done|].
  destruct (truthy body_) eqn:Etruthy.
  - right. destruct body_ as [| |b|n|text|elements|props]; simpl in Hrecord; try done.
    exists text. split; [done|]. split.
    { intros ->. done. }
    repeat match type of Hrecord with
    | context [mbind _ ?m] =>
        destruct m; simpl in Hrecord; [|discriminate]
    end.
    by injection Hrecord as <-.
  - left. split; [done|]. simpl in Hrecord.
    repeat match type of Hrecord with
    | context [mbind _ ?m] =>
        destruct m; simpl in Hrecord; [|discriminate]
    end.
    by injection Hrecord as <-.
Qed.

(** C9, as amended: every article of the news feed adapter comes from the
    record at the same position of the payload's [Data]; its description is
    the empty string when that record has no body text, and otherwise the
    first 200 characters of the body followed by three dots, hence at most
    203 characters and never the bare truncation. *)
Theorem news_feed_description (w : ambient) (o : fetch_outcome)
  (l : list article) (i : nat) (a : article) :
  fetchCryptoCompareNews w o = Normal l → l !! i = Some a →
  ∃ r data raws raw body_,
    o = responded r ∧ body r = Some data ∧
    get data "Data" = Normal (VArr raws) ∧ raws !! i = Some raw ∧
    get raw "body" = Normal body_ ∧
    ((truthy body_ = false ∧ description a = VStr "") ∨
     (∃ text, body_ = VStr text ∧ text ≠ "" ∧
        description a = VStr (substring 0 200 text +:+ "..."))) ∧
    ∃ d, description a = VStr d ∧ (String.length d ≤ 203)%nat.
Proof.
  unfold fetchCryptoCompareNews, cryptoCompare_try. intros Hfetch Hlookup.
  destruct o as [|r]; simpl in Hfetch.
  { injection Hfetch as <-. done. }
  unfold json in Hfetch. destruct (body r) as [data|] eqn:Ebody; simpl in Hfetch;
    [|injection Hfetch as <-; done].
  destruct (get data "Data") as [Data|] eqn:EData; simpl in Hfetch;
    [|injection Hfetch as <-; done].
  destruct (truthy Data) eqn:Etruthy; [|injection Hfetch as <-; done].
  destruct Data as [| |b|n|text|raws|props]; simpl in Hfetch;
    try (injection Hfetch as <-; done).
  destruct (Array_map _ _ raws) as [out|] eqn:Emap; simpl in Hfetch;
    [|injection Hfetch as <-; done].
  injection Hfetch as <-.
  destruct (Array_map_lookup _ _ _ _ _ _ Emap Hlookup) as (raw & Hraw & Hrecord).
  destruct (cryptoCompare_record_description _ _ _ _ Hrecord)
    as (body_ & Hbody & Hdescription).
  exists r, data, raws, raw, body_. repeat (split; [done|]).
  destruct Hdescription as [[_ ->] | (text & _ & _ & ->)].
  - exists "". split; [done|]. simpl. lia.
  - eexists. split; [done|]. rewrite string_length_app. unfold substring. simpl.
    pose proof (string_length_substring_0 200 text). lia.
Qed.

(** ** Deduplication *)

Lemma first_occurrences_kept_from (news : list article) :
  first_occurrences news = kept_from [] news.
Proof. reflexivity. Qed.

Lemma earlier_with_key_spec (news : list article) (i : nat) (a : article) :
  earlier_with_key news i a = true ↔ dedup_key a ∈ dedup_key <$> take i news.
Proof.
  unfold earlier_with_key. rewrite existsb_exists, list_elem_of_fmap.
  split.
  - intros (b & Hb & Hkey). apply bool_decide_eq_true in Hkey.
    exists b. split; [done|]. by apply list_elem_of_In.
  - intros (b & Hkey & Hb). exists b. split; [by apply list_elem_of_In|].
    by apply bool_decide_eq_true.
Qed.

Lemma kept_from_cons (before : list article) (a : article) (l : list article) :
  kept_from before (a :: l) =
  (if bool_decide (dedup_key a ∈ dedup_key <$> before) then [] else [a]) ++
  kept_from (before ++ [a]) l.
Proof.
  unfold kept_from. rewrite imap_cons. cbn [omap list_omap].
  assert (earlier_with_key (before ++ a :: l) (length before + 0) a =
          bool_decide (dedup_key a ∈ dedup_key <$> before)) as ->.
  { apply eq_true_iff_eq. rewrite earlier_with_key_spec, bool_decide_eq_true.
    by rewrite Nat.add_0_r, take_app_length. }
  assert (imap ((λ i b,
            if earlier_with_key (before ++ a :: l) (length before + i) b
            then None else Some b) ∘ S) l =
          imap (λ i b,
            if earlier_with_key ((before ++ [a]) ++ l) (length (before ++ [a]) + i) b
            then None else Some b) l) as ->.
  { apply imap_ext. intros i b _. simpl.
    rewrite <- app_assoc, length_app. simpl.
    by replace (length before + S i)%nat with (length before + 1 + i)%nat by lia. }
  by destruct (bool_decide _).
Qed.

Lemma kept_from_keys (before l : list article) :
  NoDup (dedup_key <$> kept_from before l) ∧
  (∀ k, k ∈ dedup_key <$> kept_from before l → k ∉ dedup_key <$> before) ∧
  (∀ k, k ∈ dedup_key <$> l →
        k ∈ dedup_key <$> before ∨ k ∈ dedup_key <$> kept_from before l) ∧
  kept_from before l `sublist_of` l.
Proof.
  revert before. induction l as [|a l IH]; intros before.
  - repeat split; [constructor | | | done].
    + intros k Hk. by apply elem_of_nil in Hk.
    + intros k Hk. by apply elem_of_nil in Hk.
  - rewrite kept_from_cons.
    destruct (IH (before ++ [a])) as (Hnodup & Hfresh & Hall & Hsub).
    assert (∀ k, k ∈ dedup_key <$> before ++ [a] ↔
                 k ∈ dedup_key <$> before ∨ k = dedup_key a) as Hsnoc.
    { intros k. rewrite fmap_app, elem_of_app. simpl.
      rewrite list_elem_of_singleton. done. }
    case_bool_decide as Hseen; simpl.
    + repeat split; [done | | | by apply sublist_cons].
      * intros k Hk Hbefore. apply (Hfresh k Hk), Hsnoc. by left.
      * intros k [->|Hk]%elem_of_cons; [by left|].
        destruct (Hall k Hk) as [[?| ->]%Hsnoc|?]; auto.
    + repeat split; [| | | by apply sublist_skip].
      * constructor; [|done]. intros Hk. apply (Hfresh _ Hk), Hsnoc. by right.
      * intros k [->|Hk]%elem_of_cons; [done|].
        intros Hbefore. apply (Hfresh k Hk), Hsnoc. by left.
      * intros k [->|Hk]%elem_of_cons; [right; by left|].
        destruct (Hall k Hk) as [[?| ->]%Hsnoc|?]; auto.
        -- right. by left.
        -- right. by right.
Qed.

Lemma kept_from_first (before l : list article) (i : nat) (a : article) :
  l !! i = Some a →
  dedup_key a ∉ dedup_key <$> before →
  (∀ j b, (j < i)%nat → l !! j = Some b → dedup_key b ≠ dedup_key a) →
  a ∈ kept_from before l.
Proof.
  revert before i. induction l as [|x l IH]; intros before i Hi Hbefore Hfirst;
    [done|].
  rewrite kept_from_cons. destruct i as [|i]; simpl in Hi.
  - injection Hi as ->. rewrite bool_decide_eq_false_2 by done. by left.
  - apply elem_of_app. right. apply (IH _ i); [done| |].
    + rewrite fmap_app, elem_of_app. simpl. rewrite list_elem_of_singleton.
      intros [?|Hx]; [done|]. by apply (Hfirst 0%nat x); [lia| |].
    + intros j b Hj Hb. apply (Hfirst (S j)); [lia|done].
Qed.

Lemma dedup_callback_text (seen : gset string) (a : article) (s : string) :
  title a = VStr s →
  dedup_callback seen a =
  if decide (substring 0 50 (toLowerCase s) ∈ seen) then Normal (false, seen)
  else Normal (true, {[substring 0 50 (toLowerCase s)]} ∪ seen).
Proof. unfold dedup_callback. by intros ->. Qed.

Lemma dedup_callback_other (seen : gset string) (a : article) :
  ¬ text_title a → dedup_callback seen a = Throw TypeError.
Proof.
  unfold dedup_callback, text_title. intros Hnot.
  destruct (title a); try done. destruct Hnot. eauto.
Qed.

Lemma filter_closure_kept_from (seen : gset string) (before l : list article) :
  keys_seen seen before → Forall text_title l →
  Array_filter_closure dedup_callback seen l = Normal (kept_from before l).
Proof.
  revert seen before. induction l as [|a l IH]; intros seen before Hseen Htext.
  - reflexivity.
  - apply Forall_cons in Htext as [[s Hs] Htext].
    rewrite kept_from_cons. cbn [Array_filter_closure].
    rewrite (dedup_callback_text _ _ _ Hs).
    assert (dedup_key a = Some (substring 0 50 (toLowerCase s))) as Hkey.
    { unfold dedup_key. by rewrite Hs. }
    rewrite Hkey.
    destruct (decide (substring 0 50 (toLowerCase s) ∈ seen)) as [Hin|Hout]; simpl.
    + rewrite (IH seen (before ++ [a])); [| |done].
      * rewrite bool_decide_eq_true_2; [done|]. by apply Hseen.
      * intros k. rewrite fmap_app, elem_of_app, <- (Hseen k). simpl.
        rewrite list_elem_of_singleton, Hkey. split; [auto|].
        intros [?|[= ->]]; done.
    + rewrite (IH ({[substring 0 50 (toLowerCase s)]} ∪ seen) (before ++ [a]));
        [| |done].
      * rewrite bool_decide_eq_false_2; [done|]. by rewrite <- (Hseen _).
      * intros k. rewrite fmap_app, elem_of_app, <- (Hseen k). simpl.
        rewrite list_elem_of_singleton, Hkey, elem_of_union, elem_of_singleton.
        split; [intros [->|?]; auto|]. intros [?|[= ->]]; auto.
Qed.

(** C3: on articles with text titles, [removeDuplicates] returns exactly the
    first occurrences: in the order of the input, each article is kept
    unless an earlier one has the same key, the lower-cased title cut to 50
    characters. So no key is left twice, the first article of each key is
    left, and of two articles with one key the later is dropped. *)
Theorem dedup_keeps_first_occurrences (news : list article) :
  Forall text_title news →
  removeDuplicates news = Normal (first_occurrences news) ∧
  first_occurrences news `sublist_of` news ∧
  NoDup (dedup_key <$> first_occurrences news) ∧
  (∀ i a, news !! i = Some a →
          (∀ j b, (j < i)%nat → news !! j = Some b → dedup_key b ≠ dedup_key a) →
          a ∈ first_occurrences news) ∧
  (∀ a b, news = [a; b] → dedup_key a = dedup_key b →
          removeDuplicates news = Normal [a]).
Proof.
  intros Htext.
  assert (removeDuplicates news = Normal (first_occurrences news)) as Hdedup.
  { unfold removeDuplicates. rewrite first_occurrences_kept_from.
    apply filter_closure_kept_from; [|done]. intros k. split.
    - intros Hk. by apply elem_of_empty in Hk.
    - intros Hk. by apply elem_of_nil in Hk. }
  destruct (kept_from_keys [] news) as (Hnodup & _ & Hall & Hsub).
  split; [done|]. split; [done|]. split; [done|]. split.
  - intros i a Hi Hfirst. rewrite first_occurrences_kept_from.
    apply (kept_from_first [] news i); [done| |done]. apply not_elem_of_nil.
  - intros a b -> Hkey. rewrite Hdedup. f_equal.
    rewrite first_occurrences_kept_from, !kept_from_cons.
    rewrite (bool_decide_eq_false_2 (dedup_key a ∈ dedup_key <$> []))
      by apply not_elem_of_nil.
    rewrite (bool_decide_eq_true_2 (dedup_key b ∈ dedup_key <$> [] ++ [a])).
    + reflexivity.
    + simpl. rewrite Hkey. by apply list_elem_of_singleton.
Qed.

Lemma filter_closure_stable (seen : gset string) (l out : list article) :
  Array_filter_closure dedup_callback seen l = Normal out →
  ∀ seen', seen' ⊆ seen →
    Array_filter_closure dedup_callback seen' out = Normal out.
Proof.
  revert seen out. induction l as [|a l IH]; intros seen out; simpl.
  - intros [= <-]. done.
  - destruct (title a) as [| |b|n|s|elements|props] eqn:Etitle;
      try (rewrite dedup_callback_other;
           [done | intros [s Hs]; congruence]).
    rewrite (dedup_callback_text _ _ _ Etitle).
    destruct (decide (substring 0 50 (toLowerCase s) ∈ seen)) as [Hin|Hout]; simpl.
    + destruct (Array_filter_closure dedup_callback seen l) as [rest|] eqn:Erest;
        simpl; [|done].
      intros [= <-]. by apply (IH seen).
    + destruct (Array_filter_closure dedup_callback _ l) as [rest|] eqn:Erest;
        simpl; [|done].
      intros Hout' seen' Hsub. injection Hout' as <-. simpl.
      rewrite (dedup_callback_text _ _ _ Etitle).
      destruct (decide (substring 0 50 (toLowerCase s) ∈ seen')) as [Hin'|_];
        [by destruct Hout; apply Hsub|]. simpl.
      rewrite (IH _ _ Erest); [done|by apply union_mono_l].
Qed.

(** C7: running [removeDuplicates] on its own result changes nothing: doing
    it twice is doing it once, whether it returns or throws; and on
    articles with text titles it does return, a list that a second run
    returns unchanged. *)
Theorem dedup_idempotent (news : list article) :
  (removeDuplicates news ≫= removeDuplicates) = removeDuplicates news ∧
  (Forall text_title news →
   ∃ out, removeDuplicates news = Normal out ∧ removeDuplicates out = Normal out).
Proof.
  assert (∀ out, removeDuplicates news = Normal out →
                 removeDuplicates out = Normal out) as Hstable.
  { intros out Hout. by apply (filter_closure_stable ∅ news). }
  split.
  - destruct (removeDuplicates news) as [out|e] eqn:Eout; simpl; [|done].
    by apply Hstable.
  - intros Htext. exists (kept_from [] news).
    assert (removeDuplicates news = Normal (kept_from [] news)) as Hout.
    { apply filter_closure_kept_from; [|done]. intros k. split.
      - intros Hk. by apply elem_of_empty in Hk.
      - intros Hk. by apply elem_of_nil in Hk. }
    split; [done|]. by apply Hstable.
Qed.

(** ** The filter stage *)

(** C8: with the filter "all" and a search box that is empty, or holds only
    white space, [applyFilters] returns the list it was given, and
    [filterNews] renders the whole of [allNews]. *)
Theorem filter_all_empty_search_is_identity (news : list article)
  (search : string) (c : controller) :
  applyFilters news "all" "" = Normal news ∧
  (trim (toLowerCase search) = "" →
   applyFilters news "all" search = Normal news ∧
   (currentFilter c = "all" → searchInput c = search →
    filterNews c = renderNews (allNews c) c)).
Proof.
  split; [reflexivity|]. intros Hblank.
  assert (applyFilters news "all" search = Normal news) as Hid.
  { unfold applyFilters. simpl. by rewrite Hblank. }
  split; [done|]. intros Hall Hsearch.
  unfold filterNews. run_action. rewrite Hall, Hsearch.
  unfold applyFilters. cbn [mbind completion_bind]. simpl. by rewrite Hblank.
Qed.

(** ** The sort step *)

Lemma not_older_trans (a b c : article) :
  not_older a b → not_older b c → not_older a c.
Proof.
  intros (ta & tb & Ha & Hb & Hab) (tb' & tc & Hb' & Hc & Hbc).
  unfold dated_at in *. assert (tb' = tb) as -> by congruence.
  exists ta, tc. repeat split; [done..|lia].
Qed.

Lemma newest_first_dated (a b : article) (ta tb : Z) :
  dated_at a ta → dated_at b tb → newest_first a b = Normal (Some (tb - ta)).
Proof. unfold newest_first, dated_at. by intros -> ->. Qed.

Lemma sort_insert_dated (x : article) (sorted : list article) :
  dated x → Forall dated sorted →
  ∃ out, sort_insert newest_first x sorted = Normal out ∧
         out ≡ₚ x :: sorted ∧
         (StronglySorted not_older sorted → StronglySorted not_older out).
Proof.
  intros [tx Hx]. induction sorted as [|y sorted IH]; intros Hdated.
  - exists [x]. repeat split; [done|]. intros _. repeat constructor.
  - apply Forall_cons in Hdated as [[ty Hy] Hdated]. simpl.
    rewrite (newest_first_dated _ _ _ _ Hx Hy). simpl.
    destruct (Z.leb_spec (ty - tx) 0) as [Hle|Hgt].
    + exists (x :: y :: sorted). repeat split; [done|].
      intros Hsorted. constructor; [done|].
      assert (not_older x y) as Hxy by (exists tx, ty; repeat split; [done..|lia]).
      constructor; [done|].
      apply StronglySorted_cons in Hsorted as [Hall _].
      eapply Forall_impl; [exact Hall|]. intros z. by apply not_older_trans.
    + destruct (IH Hdated) as (rest & -> & Hperm & Hsorted). simpl.
      exists (y :: rest). split; [done|]. split.
      * rewrite Hperm. apply perm_swap.
      * intros [Hall Hs]%StronglySorted_cons. constructor; [by apply Hsorted|].
        rewrite Hperm. constructor; [|done].
        exists ty, tx. repeat split; [done..|lia].
Qed.

Lemma Array_sort_dated (l : list article) :
  Forall dated l →
  ∃ sorted, Array_sort newest_first l = Normal sorted ∧
            sorted ≡ₚ l ∧ StronglySorted not_older sorted.
Proof.
  induction l as [|x l IH]; intros Hdated.
  - exists []. repeat split; [done|constructor].
  - apply Forall_cons in Hdated as [Hx Hdated].
    destruct (IH Hdated) as (sorted & Hsort & Hperm & Hsorted).
    destruct (sort_insert_dated x sorted Hx) as (out & Hout & Hperm' & Hsorted').
    { by rewrite Hperm. }
    exists out. simpl. rewrite Hsort. simpl. split; [done|]. split.
    + by rewrite Hperm', Hperm.
    + by apply Hsorted'.
Qed.



(** ** More on the cycle: what [removeDuplicates] throws on, and what a
       cycle leaves behind *)

Lemma text_title_dec (a : article) : text_title a ∨ ¬ text_title a.
Proof.
  unfold text_title. destruct (title a); try (right; intros [s Hs]; done).
  left. eauto.
Qed.

Lemma filter_closure_throws (seen : gset string) (l : list article) :
  Exists (λ a, ¬ text_title a) l →
  Array_filter_closure dedup_callback seen l = Throw TypeError.
Proof.
  revert seen. induction l as [|a l IH]; intros seen Hbad.
  - by apply Exists_nil in Hbad.
  - cbn [Array_filter_closure].
    destruct (text_title_dec a) as [[s Hs]|Hnot].
    + apply Exists_cons in Hbad as [Hbad|Hbad]; [destruct Hbad; by exists s|].
      rewrite (dedup_callback_text _ _ _ Hs).
      destruct (decide _); simpl; by rewrite IH.
    + by rewrite dedup_callback_other.
Qed.

(** X1: [removeDuplicates] throws exactly when some article of the list has
    a title that is not a string, wherever it stands in the list, and what
    it throws is then a TypeError. *)
Theorem removeDuplicates_throws_iff (news : list article) :
  (throws (removeDuplicates news) ↔ Exists (λ a, ¬ text_title a) news) ∧
  (∀ e, removeDuplicates news = Throw e → e = TypeError).
Proof.
  assert (Exists (λ a, ¬ text_title a) news ∨ Forall text_title news) as [Hbad|Hgood].
  { induction news as [|a news IH]; [right; constructor|].
    destruct (text_title_dec a) as [Ha|Ha]; [|left; by left].
    destruct IH as [IH|IH]; [left; by right | right; by constructor]. }
  - pose proof (filter_closure_throws ∅ news Hbad) as Hthrow.
    fold (removeDuplicates news) in Hthrow. rewrite Hthrow.
    split; [|congruence]. split; [done|]. intros _. by exists TypeError.
  - assert (removeDuplicates news = Normal (kept_from [] news)) as ->.
    { apply filter_closure_kept_from; [|done]. intros k. split.
      - intros Hk. by apply elem_of_empty in Hk.
      - intros Hk. by apply elem_of_nil in Hk. }
    split; [|done]. split; [intros [e ?]; done|].
    intros Hbad. apply Exists_exists in Hbad as (a & Ha & Hnot).
    rewrite Forall_forall in Hgood. destruct Hnot. by apply Hgood.
Qed.

Lemma resume_fields (results : list settled) (clock : Z) (c : controller) :
  allNews (fetchNews_resume results clock c).2 = list_left_by_cycle results ∧
  currentFilter (fetchNews_resume results clock c).2 = currentFilter c ∧
  searchInput (fetchNews_resume results clock c).2 = searchInput c.
Proof.
  rewrite fetchNews_resume_unfold, cycle_try_unfold. unfold list_left_by_cycle.
  cbv zeta.
  destruct (Array_sort _ _) as [sorted|e1]; [|done].
  destruct (removeDuplicates sorted) as [deduped|e2]; [|done].
  pose proof (filterNews_frame
    (set_lastUpdate (Some clock) (set_allNews deduped (set_allNews (merged results) c))))
    as (Hnews & Hfilter & _ & Hsearch & _).
  by destruct (filterNews _) as [[[]|e3] c'].
Qed.

Lemma StronglySorted_sublist {A} (R : relation A) (l1 l2 : list A) :
  l1 `sublist_of` l2 → StronglySorted R l2 → StronglySorted R l1.
Proof.
  induction 1 as [|x l1 l2 Hsub IH|x l1 l2 Hsub IH]; intros Hsorted; [done|..].
  - apply StronglySorted_cons in Hsorted as [Hall Hsorted].
    constructor; [by apply IH|].
    rewrite Forall_forall in Hall |- *. intros y Hy.
    apply Hall. by eapply sublist_subseteq.
  - apply StronglySorted_cons in Hsorted as [_ Hsorted]. by apply IH.
Qed.

(** X2: when every article the adapters delivered has a text title and a
    valid date, a resumed cycle leaves in [allNews] a list that is newest
    first, holds no key twice, holds the first article of every delivered
    key and nothing the adapters did not deliver; this whether or not
    filtering or rendering fails afterwards. *)
Theorem cycle_leaves_sorted_distinct_list (results : list settled) (clock : Z)
  (c : controller) :
  Forall text_title (merged results) → Forall dated (merged results) →
  let news := allNews (fetchNews_resume results clock c).2 in
  StronglySorted not_older news ∧
  NoDup (dedup_key <$> news) ∧
  news ⊆ merged results ∧
  (∀ k, k ∈ dedup_key <$> merged results → k ∈ dedup_key <$> news).
Proof.
  intros Htext Hdated. cbv zeta.
  destruct (resume_fields results clock c) as (-> & _).
  unfold list_left_by_cycle.
  destruct (Array_sort_dated _ Hdated) as (sorted & -> & Hperm & Hsorted).
  assert (Forall text_title sorted) as Htext' by (by rewrite Hperm).
  assert (removeDuplicates sorted = Normal (kept_from [] sorted)) as ->.
  { apply filter_closure_kept_from; [|done]. intros k. split.
    - intros Hk. by apply elem_of_empty in Hk.
    - intros Hk. by apply elem_of_nil in Hk. }
  destruct (kept_from_keys [] sorted) as (Hnodup & _ & Hall & Hsub).
  split; [by eapply StronglySorted_sublist|]. split; [done|]. split.
  - intros a Ha. rewrite <- Hperm. by eapply sublist_subseteq.
  - intros k Hk. destruct (Hall k) as [Hnil|?]; [by rewrite Hperm| |done].
    by apply elem_of_nil in Hnil.
Qed.

(** ** What the adapters deliver *)

Ltac invert_binds H :=
  repeat match type of H with
  | context [mbind _ ?m] =>
      let E := fresh "E" in destruct m eqn:E; simpl in H; [|discriminate]
  end.

Lemma Array_map_length {A B} (callback : nat → A → completion B) (k : nat)
  (l : list A) (out : list B) :
  Array_map callback k l = Normal out → length out = length l.
Proof.
  revert k out. induction l as [|x l IH]; intros k out; simpl.
  - by intros [= <-].
  - destruct (callback k x); simpl; [|done].
    destruct (Array_map callback (S k) l) eqn:E; simpl; [|done].
    intros [= <-]. simpl. f_equal. by eapply IH.
Qed.

Lemma Array_map_throws {A B} (callback : nat → A → completion B) (k : nat)
  (l : list A) (i : nat) (x : A) :
  l !! i = Some x → throws (callback (k + i)%nat x) →
  throws (Array_map callback k l).
Proof.
  revert k i. induction l as [|y l IH]; intros k i; [done|].
  destruct i as [|i]; simpl.
  - intros [= ->]. rewrite Nat.add_0_r. intros [e ->]. by exists e.
  - intros Hx Hthrow. destruct (callback k y); simpl; [|by eexists].
    destruct (IH (S k) i Hx) as [e ->]; [|by exists e].
    by replace (S k + i)%nat with (k + S i)%nat by lia.
Qed.

Lemma or_else_truthy_r (v w : value) : truthy w = true → truthy (v ||| w) = true.
Proof. unfold or_else. by destruct (truthy v) eqn:E. Qed.

Lemma getPlaceholderImage_truthy (draw : nat) :
  (draw < 5)%nat → truthy (getPlaceholderImage draw) = true.
Proof.
  intros Hdraw. do 5 (destruct draw as [|draw]; [reflexivity|]). lia.
Qed.

Lemma get_of_object (o : value) (k : string) :
  nullish o = false → get o k = Normal (default VUndefined (own_property k o)).
Proof. by destruct o. Qed.

Lemma get_opt_returns (o : value) (k : string) : ∃ v, get_opt o k = Normal v.
Proof. unfold get_opt. destruct o; simpl; eauto. Qed.

Lemma news_feed_inv (w : ambient) (o : fetch_outcome) (l : list article) :
  fetchCryptoCompareNews w o = Normal l →
  l = [] ∨
  ∃ r data raws, o = responded r ∧ body r = Some data ∧
    get data "Data" = Normal (VArr raws) ∧
    Array_map (cryptoCompare_record w) 0 raws = Normal l.
Proof.
  unfold fetchCryptoCompareNews, cryptoCompare_try. intros Hfetch.
  destruct o as [|r]; simpl in Hfetch; [left; congruence|].
  unfold json in Hfetch.
  destruct (body r) as [data|] eqn:Ebody; simpl in Hfetch; [|left; congruence].
  destruct (get data "Data") as [Data|] eqn:EData; simpl in Hfetch;
    [|left; congruence].
  destruct (truthy Data); simpl in Hfetch; [|left; congruence].
  destruct Data as [| |b|n|text|raws|props]; simpl in Hfetch;
    try (left; congruence).
  destruct (Array_map _ _ raws) as [out|] eqn:Emap; simpl in Hfetch;
    [|left; congruence].
  right. exists r, data, raws. repeat split; congruence.
Qed.

(** X7: the news feed is all or nothing. With a payload whose [Data] is an
    array, the adapter returns either one article per record or no article
    at all; one record on which the mapping throws empties the feed, and a
    record without [published_on] is such a record. *)
Theorem news_feed_all_or_nothing (w : ambient) (r : response) (data : value)
  (raws : list value) :
  body r = Some data → get data "Data" = Normal (VArr raws) →
  ∃ l, fetchCryptoCompareNews w (responded r) = Normal l ∧
       (l = [] ∨ length l = length raws) ∧
       (∀ i raw, raws !! i = Some raw →
          throws (cryptoCompare_record w i raw) → l = []) ∧
       (∀ i raw, raws !! i = Some raw →
          own_property "published_on" raw = None → l = []).
Proof.
  intros Hbody HData.
  assert (∀ i raw, own_property "published_on" raw = None →
                   throws (cryptoCompare_record w i raw)) as Hdate.
  { intros i raw Hmissing. unfold cryptoCompare_record.
    destruct (nullish raw) eqn:Enull.
    { exists TypeError. by destruct raw. }
    rewrite !(get_of_object raw) by done. cbn [mbind completion_bind].
    destruct (if truthy (default VUndefined (own_property "body" raw))
              then _ else _); cbn [mbind completion_bind]; [|by eexists].
    destruct (get_opt_returns (default VUndefined (own_property "source_info" raw))
                "name") as [name ->].
    cbn [mbind completion_bind]. rewrite Hmissing. by exists RangeError. }
  unfold fetchCryptoCompareNews, cryptoCompare_try. simpl. unfold json.
  rewrite Hbody. simpl. rewrite HData. simpl.
  destruct (Array_map (cryptoCompare_record w) 0 raws) as [out|e] eqn:Emap; simpl.
  - exists out. split; [done|]. split; [right; by eapply Array_map_length|].
    assert (∀ i raw, raws !! i = Some raw →
              throws (cryptoCompare_record w i raw) → out = []) as Hthrows.
    { intros i raw Hraw Hthrow.
      destruct (Array_map_throws (cryptoCompare_record w) 0 raws i raw Hraw Hthrow)
        as [e He]. congruence. }
    split; [done|]. intros i raw Hraw Hmissing. eapply Hthrows; [done|].
    by apply Hdate.
  - exists []. split; [done|]. split; [by left|]. done.
Qed.

Lemma cryptoCompare_record_shape (w : ambient) (i : nat) (raw : value) (a : article) :
  cryptoCompare_record w i raw = Normal a →
  (∃ t, Z.abs t ≤ 8640000000000000 ∧ publishedAt a = VStr (Date_toISOString t)) ∧
  Forall is_text (categories a) ∧
  truthy (source a) = true ∧
  ((random w i < 5)%nat → truthy (imageUrl a) = true).
Proof.
  unfold cryptoCompare_record. intros Hrecord.
  destruct (nullish raw) eqn:Enull; [by destruct raw|].
  rewrite !(get_of_object raw) in Hrecord by done.
  cbn [mbind completion_bind] in Hrecord.
  destruct (if truthy (default VUndefined (own_property "body" raw)) then _ else _)
    as [description_|]; cbn [mbind completion_bind] in Hrecord; [|done].
  destruct (get_opt_returns (default VUndefined (own_property "source_info" raw))
              "name") as [name Hname].
  rewrite Hname in Hrecord. cbn [mbind completion_bind] in Hrecord.
  destruct (ToNumber _) as [seconds|]; cbn [mbind completion_bind] in Hrecord;
    [|done].
  destruct (toISOString _) as [iso|] eqn:Eiso;
    cbn [mbind completion_bind] in Hrecord; [|done].
  destruct (if truthy (default VUndefined (own_property "categories" raw))
            then _ else _) as [tags|] eqn:Etags;
    cbn [mbind completion_bind] in Hrecord; [|done].
  injection Hrecord as <-. cbn [publishedAt categories source imageUrl].
  split; [|split; [|split]].
  - destruct seconds as [n|]; [|done]. simpl in Eiso.
    destruct (Z.leb_spec (Z.abs (n * 1000)) 8640000000000000); [|done].
    exists (n * 1000). split; [done|]. simpl in Eiso. congruence.
  - destruct (truthy _) in Etags.
    + destruct (default VUndefined (own_property "categories" raw));
        try done. injection Etags as <-.
      apply Forall_fmap, Forall_forall. intros piece _. by exists piece.
    + injection Etags as <-. constructor.
  - by apply or_else_truthy_r.
  - intros Hdraw. by apply or_else_truthy_r, getPlaceholderImage_truthy.
Qed.

(** X8: every article the news feed adapter delivers carries the ISO text
    of a time value within the range of dates, categories that are all
    strings, and a source that is not empty; its image is not empty either
    when the draw falls among the five placeholders. *)
Theorem news_feed_article_shape (w : ambient) (o : fetch_outcome)
  (l : list article) (i : nat) (a : article) :
  fetchCryptoCompareNews w o = Normal l → l !! i = Some a →
  (∃ t, Z.abs t ≤ 8640000000000000 ∧ publishedAt a = VStr (Date_toISOString t)) ∧
  Forall is_text (categories a) ∧
  truthy (source a) = true ∧
  ((random w i < 5)%nat → truthy (imageUrl a) = true).
Proof.
  intros Hfetch Hlookup.
  destruct (news_feed_inv w o l Hfetch) as [-> | (r & data & raws & _ & _ & _ & Hmap)];
    [done|].
  destruct (Array_map_lookup _ _ _ _ _ _ Hmap Hlookup) as (raw & _ & Hrecord).
  by apply (cryptoCompare_record_shape w i raw).
Qed.

Lemma trending_inv (w : ambient) (o : fetch_outcome) (l : list article) :
  fetchCoinGeckoNews w o = Normal l →
  l = [] ∨
  ∃ r data raws, o = responded r ∧ body r = Some data ∧
    get data "coins" = Normal (VArr raws) ∧
    Array_map (coinGecko_record w) 0 (take 5 raws) = Normal l.
Proof.
  unfold fetchCoinGeckoNews, coinGecko_try. intros Hfetch.
  destruct o as [|r]; simpl in Hfetch; [left; congruence|].
  unfold json in Hfetch.
  destruct (body r) as [data|] eqn:Ebody; simpl in Hfetch; [|left; congruence].
  destruct (get data "coins") as [coins|] eqn:Ecoins; simpl in Hfetch;
    [|left; congruence].
  destruct (truthy coins); simpl in Hfetch; [|left; congruence].
  destruct coins as [| |b|n|text|raws|props]; simpl in Hfetch;
    try (left; congruence).
  destruct (Array_map _ _ _) as [out|] eqn:Emap; simpl in Hfetch;
    [|left; congruence].
  injection Hfetch as <-. right. exists r, data, raws.
  repeat split; done.
Qed.

Lemma coinGecko_record_shape (w : ambient) (i : nat) (raw : value) (a : article) :
  coinGecko_record w i raw = Normal a →
  (∃ name SYMBOL, title a = VStr (name +:+ " (" +:+ SYMBOL +:+ ") is Trending!")) ∧
  is_text (description a) ∧
  (∃ id, url a = VStr ("https://www.coingecko.com/en/coins/" +:+ id)) ∧
  source a = VStr "CoinGecko Trending" ∧
  publishedAt a = VStr (Date_toISOString (now w i)) ∧
  categories a = [VStr "trending"; VStr "market"].
Proof.
  unfold coinGecko_record. intros Hrecord. invert_binds Hrecord.
  injection Hrecord as <-. simpl. repeat split; eauto. by eexists.
Qed.

Lemma coinGecko_record_source (w : ambient) (i : nat) (raw : value) (a : article) :
  coinGecko_record w i raw = Normal a →
  ∃ item name_text symbol rank_text id_text,
    get raw "item" = Normal item ∧
    (get item "name" ≫= ToString) = Normal name_text ∧
    get item "symbol" = Normal (VStr symbol) ∧
    (get item "market_cap_rank" ≫= λ rank, ToString (rank ||| VStr "N/A")) =
      Normal rank_text ∧
    (get item "id" ≫= ToString) = Normal id_text ∧
    title a = VStr (name_text +:+ " (" +:+ toUpperCase symbol +:+ ") is Trending!") ∧
    description a =
      VStr (name_text +:+
            " is currently trending on CoinGecko. Market Cap Rank: #" +:+
            rank_text) ∧
    url a = VStr ("https://www.coingecko.com/en/coins/" +:+ id_text).
Proof.
  unfold coinGecko_record. intros Hrecord.
  destruct (get raw "item") as [item|]; cbn [mbind completion_bind] in Hrecord;
    [|done].
  destruct (get item "name") as [name|] eqn:Ename;
    cbn [mbind completion_bind] in Hrecord; [|done].
  destruct (ToString name) as [name_text|] eqn:Ename_text;
    cbn [mbind completion_bind] in Hrecord; [|done].
  destruct (get item "symbol") as [symbol_|] eqn:Esymbol;
    cbn [mbind completion_bind] in Hrecord; [|done].
  destruct symbol_ as [| |b|n|symbol|elements|props];
    cbn [call_toUpperCase mbind completion_bind] in Hrecord; try done.
  destruct (get item "market_cap_rank") as [rank|] eqn:Erank;
    cbn [mbind completion_bind] in Hrecord; [|done].
  destruct (ToString (rank ||| VStr "N/A")) as [rank_text|] eqn:Erank_text;
    cbn [mbind completion_bind] in Hrecord; [|done].
  destruct (get item "id") as [id|] eqn:Eid;
    cbn [mbind completion_bind] in Hrecord; [|done].
  destruct (ToString id) as [id_text|] eqn:Eid_text;
    cbn [mbind completion_bind] in Hrecord; [|done].
  invert_binds Hrecord. injection Hrecord as <-.
  exists item, name_text, symbol, rank_text, id_text.
  rewrite Ename, Erank, Eid. cbn [mbind completion_bind title description url].
  by rewrite Ename_text, Erank_text, Eid_text.
Qed.

(** X9: the trending adapter delivers at most five articles, made of the
    first five records of [coins]: the article at position [i] comes from
    the record at position [i], with [i] below five, and when there are
    articles there is one for each of the first five records. Its title is
    the record's name, then its symbol in upper case in brackets, then
    "is Trending!"; its description gives the name and the market cap rank,
    or N/A; its link is the record's id under coingecko.com; its source is
    "CoinGecko Trending", its date the time of the fetch and its categories
    trending and market. *)
Theorem trending_article_shape (w : ambient) (o : fetch_outcome) (l : list article) :
  fetchCoinGeckoNews w o = Normal l →
  (length l ≤ 5)%nat ∧
  ∀ i a, l !! i = Some a →
    (∃ r data raws raw item name_text symbol rank_text id_text,
       o = responded r ∧ body r = Some data ∧
       get data "coins" = Normal (VArr raws) ∧
       length l = Nat.min 5 (length raws) ∧
       (i < 5)%nat ∧ raws !! i = Some raw ∧
       get raw "item" = Normal item ∧
       (get item "name" ≫= ToString) = Normal name_text ∧
       get item "symbol" = Normal (VStr symbol) ∧
       (get item "market_cap_rank" ≫= λ rank, ToString (rank ||| VStr "N/A")) =
         Normal rank_text ∧
       (get item "id" ≫= ToString) = Normal id_text ∧
       title a = VStr (name_text +:+ " (" +:+ toUpperCase symbol +:+ ") is Trending!") ∧
       description a =
         VStr (name_text +:+
               " is currently trending on CoinGecko. Market Cap Rank: #" +:+
               rank_text) ∧
       url a = VStr ("https://www.coingecko.com/en/coins/" +:+ id_text)) ∧
    (∃ name SYMBOL, title a = VStr (name +:+ " (" +:+ SYMBOL +:+ ") is Trending!")) ∧
    is_text (description a) ∧
    (∃ id, url a = VStr ("https://www.coingecko.com/en/coins/" +:+ id)) ∧
    source a = VStr "CoinGecko Trending" ∧
    publishedAt a = VStr (Date_toISOString (now w i)) ∧
    categories a = [VStr "trending"; VStr "market"].
Proof.
  intros Hfetch.
  destruct (trending_inv w o l Hfetch)
    as [-> | (r & data & raws & Ho & Hbody & Hcoins & Hmap)].
  { split; [simpl; lia|done]. }
  pose proof (Array_map_length _ _ _ _ Hmap) as Hlength.
  rewrite length_take in Hlength.
  split; [lia|].
  intros i a Hlookup.
  destruct (Array_map_lookup _ _ _ _ _ _ Hmap Hlookup) as (raw & Hraw & Hrecord).
  apply lookup_take_Some in Hraw as [Hraw Hi].
  split; [|by apply (coinGecko_record_shape w i raw)].
  destruct (coinGecko_record_source w i raw a Hrecord)
    as (item & name_text & symbol & rank_text & id_text & Hitem & Hname & Hsymbol
        & Hrank & Hid & Htitle & Hdescription & Hurl).
  exists r, data, raws, raw, item, name_text, symbol, rank_text, id_text.
  repeat (split; [done|]). done.
Qed.

Lemma status_inv (w : ambient) (o : fetch_outcome) (l : list article) :
  fetchAlternativeNews w o = Normal l →
  l = [] ∨
  ∃ r data raws, o = responded r ∧ body r = Some data ∧
    get data "status_updates" = Normal (VArr raws) ∧
    Array_map (statusUpdate_record w) 0 raws = Normal l.
Proof.
  unfold fetchAlternativeNews, statusUpdate_try. intros Hfetch.
  destruct o as [|r]; simpl in Hfetch; [left; congruence|].
  unfold json in Hfetch.
  destruct (body r) as [data|] eqn:Ebody; simpl in Hfetch; [|left; congruence].
  destruct (get data "status_updates") as [updates|] eqn:Eupdates;
    simpl in Hfetch; [|left; congruence].
  destruct (truthy updates); simpl in Hfetch; [|left; congruence].
  destruct updates as [| |b|n|text|raws|props]; simpl in Hfetch;
    try (left; congruence).
  destruct (Array_map _ _ _) as [out|] eqn:Emap; simpl in Hfetch;
    [|left; congruence].
  injection Hfetch as <-. right. exists r, data, raws. repeat split; done.
Qed.

Lemma string_app_nonempty (s1 s2 : string) : s2 ≠ "" → s1 +:+ s2 ≠ "".
Proof.
  intros Hs2 Happ. apply (f_equal String.length) in Happ.
  rewrite string_length_app in Happ. destruct s2; [done|]. simpl in Happ. lia.
Qed.

Lemma call_opt_substring_inv (v short : value) (start stop : nat) :
  call_opt_substring v start stop = Normal short →
  (nullish v = true ∧ short = VUndefined) ∨
  (∃ s, v = VStr s ∧ short = VStr (substring start stop s)).
Proof.
  unfold call_opt_substring.
  destruct v; simpl; intros [= <-]; eauto.
Qed.

Lemma or_else_text (v : value) (s : string) :
  nullish v = true ∨ is_text v → is_text (v ||| VStr s).
Proof.
  unfold or_else. intros [Hnull|[s' ->]].
  - destruct v; try done; by exists s.
  - destruct (truthy (VStr s')); by eexists.
Qed.

Lemma or_else_nonempty_text (v : value) (s : string) :
  s ≠ "" → nullish v = true ∨ is_text v → is_nonempty_text (v ||| VStr s).
Proof.
  unfold or_else. intros Hs [Hnull|[s' ->]].
  - destruct v; try done; by exists s.
  - destruct (truthy (VStr s')) eqn:E; [|by exists s].
    exists s'. split; [done|]. intros ->. done.
Qed.

Lemma statusUpdate_record_shape (w : ambient) (i : nat) (raw : value) (a : article) :
  statusUpdate_record w i raw = Normal a →
  is_nonempty_text (title a) ∧
  is_text (description a) ∧
  truthy (url a) = true ∧
  truthy (source a) = true ∧
  (∃ tag, categories a = [tag] ∧ truthy tag = true).
Proof.
  unfold statusUpdate_record. intros Hrecord.
  destruct (get raw "project") as [project|]; cbn [mbind completion_bind] in Hrecord;
    [|done].
  destruct (get_opt project "name") as [name|];
    cbn [mbind completion_bind] in Hrecord; [|done].
  destruct (get raw "description") as [description_|];
    cbn [mbind completion_bind] in Hrecord; [|done].
  destruct (if truthy name then _ else _) as [title_|] eqn:Etitle;
    cbn [mbind completion_bind] in Hrecord; [|done].
  invert_binds Hrecord. injection Hrecord as <-.
  cbn [title description url source categories].
  assert (nullish description_ = true ∨ is_text description_) as Hdescription.
  { destruct (truthy name).
    - destruct (ToString name); cbn [mbind completion_bind] in Etitle; [|done].
      destruct (call_opt_substring description_ 0 60) as [short|] eqn:Eshort;
        [|done].
      destruct (call_opt_substring_inv _ _ _ _ Eshort) as [[? _]|(s & -> & _)];
        [by left | right; by exists s].
    - destruct (call_opt_substring description_ 0 80) as [short|] eqn:Eshort;
        [|done].
      destruct (call_opt_substring_inv _ _ _ _ Eshort) as [[? _]|(s & -> & _)];
        [by left | right; by exists s]. }
  split; [|split; [|split; [|split]]].
  - destruct (truthy name).
    + destruct (ToString name) as [name_text|];
        cbn [mbind completion_bind] in Etitle; [|done].
      destruct (call_opt_substring description_ 0 60) as [short|];
        cbn [mbind completion_bind] in Etitle; [|done].
      destruct (ToString (short ||| VStr "Update")) as [short_text|];
        cbn [mbind completion_bind] in Etitle; [|done].
      injection Etitle as <-. eexists. split; [done|].
      apply string_app_nonempty. done.
    + destruct (call_opt_substring description_ 0 80) as [short|] eqn:Eshort;
        cbn [mbind completion_bind] in Etitle; [|done].
      injection Etitle as <-. apply or_else_nonempty_text; [done|].
      destruct (call_opt_substring_inv _ _ _ _ Eshort) as [[_ ->]|(s & _ & ->)];
        [by left | right; by eexists].
  - by apply or_else_text.
  - by apply or_else_truthy_r.
  - by apply or_else_truthy_r.
  - eexists. split; [done|]. by apply or_else_truthy_r.
Qed.

(** X10: every article the status-update adapter delivers has a title that
    is a string with at least one character and a description that is a
    string; its link and its source are not empty, and it has exactly one
    category, which is not empty. *)
Theorem status_article_shape (w : ambient) (o : fetch_outcome)
  (l : list article) (i : nat) (a : article) :
  fetchAlternativeNews w o = Normal l → l !! i = Some a →
  is_nonempty_text (title a) ∧
  is_text (description a) ∧
  truthy (url a) = true ∧
  truthy (source a) = true ∧
  (∃ tag, categories a = [tag] ∧ truthy tag = true).
Proof.
  intros Hfetch Hlookup.
  destruct (status_inv w o l Hfetch) as [-> | (r & data & raws & _ & _ & _ & Hmap)];
    [done|].
  destruct (Array_map_lookup _ _ _ _ _ _ Hmap Hlookup) as (raw & _ & Hrecord).
  by apply (statusUpdate_record_shape w i raw).
Qed.

(** X11: only the news feed can make the cycle's [removeDuplicates] throw:
    on the articles of the trending and status-update adapters alone, in
    any mixture, it returns. *)
Theorem dedup_returns_on_trending_and_status (w2 w3 : ambient)
  (o2 o3 : fetch_outcome) (l2 l3 news : list article) :
  fetchCoinGeckoNews w2 o2 = Normal l2 →
  fetchAlternativeNews w3 o3 = Normal l3 →
  news ⊆ l2 ++ l3 →
  removeDuplicates news = Normal (first_occurrences news).
Proof.
  intros Htrending Hstatus Hnews.
  apply (filter_closure_kept_from ∅ [] news).
  { intros k. split.
    - intros Hk. by apply elem_of_empty in Hk.
    - intros Hk. by apply elem_of_nil in Hk. }
  apply Forall_forall. intros a Ha. apply Hnews, elem_of_app in Ha as [Ha|Ha].
  - apply list_elem_of_lookup in Ha as [i Hi].
    destruct (trending_inv w2 o2 l2 Htrending)
      as [-> | (r & data & raws & _ & _ & _ & Hmap)]; [done|].
    destruct (Array_map_lookup _ _ _ _ _ _ Hmap Hi) as (raw & _ & Hrecord).
    destruct (coinGecko_record_shape w2 _ raw a Hrecord)
      as ((name & SYMBOL & Htitle) & _).
    eexists. exact Htitle.
  - apply list_elem_of_lookup in Ha as [i Hi].
    destruct (status_inv w3 o3 l3 Hstatus)
      as [-> | (r & data & raws & _ & _ & _ & Hmap)]; [done|].
    destruct (Array_map_lookup _ _ _ _ _ _ Hmap Hi) as (raw & _ & Hrecord).
    destruct (statusUpdate_record_shape w3 _ raw a Hrecord) as ((s & Hs & _) & _).
    by exists s.
Qed.

(** ** The filter stage and what is shown *)

Lemma Array_filter_spec {A} (callback : A → completion bool) (l out : list A) :
  Array_filter callback l = Normal out →
  out `sublist_of` l ∧
  ∀ a, a ∈ out ↔ a ∈ l ∧ callback a = Normal true.
Proof.
  revert out. induction l as [|x l IH]; intros out; simpl.
  - intros [= <-]. split; [done|]. intros a.
    split; [intros Ha | intros [Ha _]]; by apply elem_of_nil in Ha.
  - destruct (callback x) as [keep|] eqn:Ex; simpl; [|done].
    destruct (Array_filter callback l) as [rest|]; simpl; [|done].
    destruct (IH rest eq_refl) as [Hsub Hiff].
    intros [= <-]. destruct keep.
    + split; [by apply sublist_skip|]. intros a.
      rewrite !elem_of_cons, Hiff. split.
      * intros [->|[? ?]]; auto.
      * intros [[->|?] ?]; auto.
    + split; [by apply sublist_cons|]. intros a.
      rewrite elem_of_cons, Hiff. split.
      * intros [? ?]; auto.
      * intros [[->|?] ?]; [congruence|auto].
Qed.

Lemma applyFilters_members (news out : list article)
  (filter search : string) :
  applyFilters news filter search = Normal out →
  out `sublist_of` news ∧
  ∀ a, a ∈ out ↔
       a ∈ news ∧
       (filter ≠ "all" → category_matches filter a = Normal true) ∧
       (trim (toLowerCase search) ≠ "" →
        search_matches (trim (toLowerCase search)) a = Normal true).
Proof.
  unfold applyFilters. intros Hfilters.
  assert (∃ filtered,
    (if decide (filter ≠ "all") then Array_filter (category_matches filter) news
     else Normal news) = Normal filtered ∧
    (if negb (String.eqb (trim (toLowerCase search)) "")
     then Array_filter (search_matches (trim (toLowerCase search))) filtered
     else Normal filtered) = Normal out) as (filtered & Hcategory & Hsearch).
  { destruct (if decide (filter ≠ "all") then _ else _) as [filtered|]; [|done].
    by exists filtered. }
  clear Hfilters.
  assert (filtered `sublist_of` news ∧
          ∀ a, a ∈ filtered ↔
               a ∈ news ∧ (filter ≠ "all" → category_matches filter a = Normal true))
    as [Hsub1 Hiff1].
  { destruct (decide (filter ≠ "all")) as [Hactive|Hall].
    - destruct (Array_filter_spec _ _ _ Hcategory) as [? Hiff].
      split; [done|]. intros a. rewrite Hiff. tauto.
    - injection Hcategory as <-. split; [done|]. intros a. tauto. }
  destruct (String.eqb_spec (trim (toLowerCase search)) "") as [Hblank|Hterm];
    simpl in Hsearch.
  - injection Hsearch as <-. split; [done|]. intros a. rewrite Hiff1. tauto.
  - destruct (Array_filter_spec _ _ _ Hsearch) as [Hsub2 Hiff2].
    split; [by etrans|]. intros a. rewrite Hiff2, Hiff1. tauto.
Qed.

(** X12: the filter stage only ever drops articles: when it returns, its
    result keeps the order of the list it was given, and an article is in
    it exactly when it is in that list, passes the category test if a
    category other than "all" is selected, and passes the search test if
    the search box holds more than white space. *)
Theorem applyFilters_keeps_exactly_the_matches (news out : list article)
  (filter search : string) :
  applyFilters news filter search = Normal out →
  out `sublist_of` news ∧
  ∀ a, a ∈ out ↔
       a ∈ news ∧
       (filter ≠ "all" → category_matches filter a = Normal true) ∧
       (trim (toLowerCase search) ≠ "" →
        search_matches (trim (toLowerCase search)) a = Normal true).
Proof. apply applyFilters_members. Qed.

Lemma createNewsCard_is_article (a card : article) :
  createNewsCard a = Normal card → card = a.
Proof.
  unfold createNewsCard. intros Hcard. invert_binds Hcard. congruence.
Qed.

Lemma cards_are_articles (k : nat) (news cards : list article) :
  Array_map (λ _, createNewsCard) k news = Normal cards → cards = news.
Proof.
  revert k cards. induction news as [|a news IH]; intros k cards; simpl.
  - by intros [= <-].
  - destruct (createNewsCard a) as [card|] eqn:Ecard; simpl; [|done].
    destruct (Array_map _ (S k) news) as [rest|] eqn:Erest; simpl; [|done].
    intros [= <-]. f_equal; [by apply createNewsCard_is_article | by eapply IH].
Qed.

(** X13: what [filterNews] shows. If the filter stage throws, nothing on
    the page changes. Otherwise the article count is that of the filtered
    list; an empty filtered list shows the "no results" markup and the
    count 0; a filtered list whose cards all render shows those cards; and
    if a card fails to render, the page keeps what it showed while the
    count is already the new one. *)
Theorem filterNews_shows_filtered_list (c : controller) :
  match applyFilters (allNews c) (currentFilter c) (searchInput c) with
  | Throw e => filterNews c = (Throw e, c)
  | Normal filtered =>
      articleCount (filterNews c).2 = Some (length filtered) ∧
      (filtered = [] →
       filterNews c =
       (Normal (), set_newsContainer no_results (set_articleCount (Some 0%nat) c))) ∧
      (filtered ≠ [] → (filterNews c).1 = Normal () →
       newsContainer (filterNews c).2 = news_cards filtered) ∧
      (throws (filterNews c).1 →
       newsContainer (filterNews c).2 = newsContainer c)
  end.
Proof.
  unfold filterNews. run_action.
  destruct (applyFilters _ _ _) as [filtered|e]; [|done].
  unfold renderNews. run_action.
  destruct (decide (length filtered = 0%nat)) as [Hempty|Hsome].
  - apply length_zero_iff_nil in Hempty as ->. run_action. simpl.
    repeat split; try done. intros [e ?]. done.
  - run_action.
    destruct (Array_map _ _ filtered) as [cards|e] eqn:Ecards; run_action; simpl.
    + apply cards_are_articles in Ecards as ->.
      repeat split; try done.
      * intros ->. done.
      * intros [e ?]. done.
    + repeat split; try done. intros ->. done.
Qed.

(** ** What the two filters are sure to keep *)

Lemma string_app_cons (c : ascii) (s t : string) :
  String c s +:+ t = String c (s +:+ t).
Proof. reflexivity. Qed.

Lemma string_app_nil_r (s : string) : s +:+ "" = s.
Proof. induction s as [|c s IH]; [reflexivity|]. by rewrite string_app_cons, IH. Qed.

Lemma string_app_assoc (s t u : string) : (s +:+ t) +:+ u = s +:+ t +:+ u.
Proof.
  induction s as [|c s IH]; [reflexivity|]. by rewrite !string_app_cons, IH.
Qed.

Lemma toLowerCase_app (s t : string) :
  toLowerCase (s +:+ t) = toLowerCase s +:+ toLowerCase t.
Proof.
  induction s as [|c s IH]; [reflexivity|].
  rewrite string_app_cons. simpl. by rewrite IH, string_app_cons.
Qed.

Lemma prefix_nil (s : string) : String.prefix "" s = true.
Proof. by destruct s. Qed.

Lemma prefix_app_r (needle hay post : string) :
  String.prefix needle hay = true → String.prefix needle (hay +:+ post) = true.
Proof.
  revert hay. induction needle as [|a needle IH]; intros hay.
  - intros _. apply prefix_nil.
  - destruct hay as [|b hay]; [done|]. rewrite string_app_cons. simpl.
    destruct (ascii_dec a b); [apply IH|done].
Qed.

Lemma prefix_refl (s : string) : String.prefix s s = true.
Proof.
  induction s as [|a s IH]; [reflexivity|]. simpl. by destruct (ascii_dec a a).
Qed.

Lemma includes_prefix (hay needle : string) :
  String.prefix needle hay = true → includes hay needle = true.
Proof.
  intros Hprefix. destruct hay; [by destruct needle|].
  cbn [includes]. by rewrite Hprefix.
Qed.

Lemma includes_app_l (pre hay needle : string) :
  includes hay needle = true → includes (pre +:+ hay) needle = true.
Proof.
  intros Hin. induction pre as [|c pre IH]; [exact Hin|].
  rewrite string_app_cons. simpl. rewrite IH. apply orb_true_r.
Qed.

Lemma includes_app_r (hay post needle : string) :
  includes hay needle = true → includes (hay +:+ post) needle = true.
Proof.
  induction hay as [|c hay IH].
  - cbn [includes]. rewrite orb_false_r. intros Hprefix.
    apply includes_prefix. by apply (prefix_app_r needle "" post).
  - cbn [includes]. intros [Hprefix|Hin]%orb_true_iff.
    + apply includes_prefix. by apply prefix_app_r.
    + change (includes (String c (hay +:+ post)) needle = true).
      cbn [includes]. rewrite IH by done. apply orb_true_r.
Qed.

Lemma includes_middle (pre needle post : string) :
  includes (pre +:+ needle +:+ post) needle = true.
Proof.
  apply includes_app_l, includes_app_r, includes_prefix, prefix_refl.
Qed.

Lemma join_text (sep : string) (l : list value) :
  Forall is_text l → ∃ joined, join sep l = Normal joined.
Proof.
  induction l as [|x l IH]; intros Htext; [by exists ""|].
  apply Forall_cons in Htext as [[s ->] Htext]. simpl.
  destruct (IH Htext) as [joined ->]. destruct l; by eexists.
Qed.

Lemma join_holds_member (sep tag : string) (l : list value) :
  Forall is_text l → VStr tag ∈ l →
  ∃ pre post, join sep l = Normal (pre +:+ tag +:+ post).
Proof.
  induction l as [|x l IH]; intros Htext Htag; [by apply elem_of_nil in Htag|].
  apply Forall_cons in Htext as [[s ->] Htext].
  destruct (join_text sep l Htext) as [joined Hjoined].
  apply elem_of_cons in Htag as [[= <-]|Htag].
  - cbn [join nullish ToString mbind completion_bind]. rewrite Hjoined.
    destruct l; [|cbn [mbind completion_bind]].
    + exists "", "". by rewrite string_app_nil_r.
    + by exists "", (sep +:+ joined).
  - destruct (IH Htext Htag) as (pre & post & Hjoin).
    cbn [join nullish ToString mbind completion_bind]. rewrite Hjoin.
    destruct l; [by apply elem_of_nil in Htag|]. cbn [mbind completion_bind].
    exists (s +:+ sep +:+ pre), post. by rewrite !string_app_assoc.
Qed.

(** X14: with a category selected and nothing in the search box, the
    filter stage keeps every article of the list that carries the selected
    tag among its categories, whatever the case of either; it also keeps an
    article that only has the tag's text in its title. (For articles whose
    title, description and categories are strings.) *)
Theorem category_filter_keeps_tagged (news out : list article)
  (filter search tag title_ description_ : string) (a : article) :
  applyFilters news filter search = Normal out →
  filter ≠ "all" → trim (toLowerCase search) = "" →
  a ∈ news →
  title a = VStr title_ → description a = VStr description_ →
  Forall is_text (categories a) →
  toLowerCase tag = toLowerCase filter →
  VStr tag ∈ categories a ∨ includes (toLowerCase title_) (toLowerCase tag) = true →
  a ∈ out.
Proof.
  intros Hfilters Hactive Hblank Hnews Htitle Hdescription Htext Hcase Htagged.
  apply (applyFilters_members _ _ _ _ Hfilters).
  split; [done|]. split; [|done]. intros _.
  unfold category_matches. rewrite Htitle, Hdescription.
  cbn [ToString mbind completion_bind]. rewrite <- Hcase.
  destruct Htagged as [Htag|Htitle_has].
  - destruct (join_holds_member " " tag _ Htext Htag) as (pre & post & ->).
    cbn [mbind completion_bind]. f_equal.
    rewrite !toLowerCase_app. do 4 apply includes_app_l. apply includes_middle.
  - destruct (join_text " " _ Htext) as [tags ->].
    cbn [mbind completion_bind]. f_equal.
    rewrite toLowerCase_app. by apply includes_app_r.
Qed.

(** X15: with the filter "all", the search keeps every article of the list
    whose title, description or source contains the typed text, compared in
    lower case and without the white space around the typed text. (For
    articles whose title, description and source are strings.) *)
Theorem search_keeps_articles_containing_term (news out : list article)
  (search title_ description_ source_ : string) (a : article) :
  applyFilters news "all" search = Normal out →
  a ∈ news →
  title a = VStr title_ → description a = VStr description_ →
  source a = VStr source_ →
  includes (toLowerCase title_) (trim (toLowerCase search)) = true ∨
  includes (toLowerCase description_) (trim (toLowerCase search)) = true ∨
  includes (toLowerCase source_) (trim (toLowerCase search)) = true →
  a ∈ out.
Proof.
  intros Hfilters Hnews Htitle Hdescription Hsource Hhas.
  apply (applyFilters_members _ _ _ _ Hfilters).
  split; [done|]. split; [done|]. intros _.
  unfold search_matches. rewrite Htitle, Hdescription, Hsource.
  cbn [ToString mbind completion_bind]. f_equal.
  rewrite !toLowerCase_app.
  destruct Hhas as [Hhas|[Hhas|Hhas]].
  - by apply includes_app_r.
  - by apply includes_app_l, includes_app_l, includes_app_r.
  - by do 4 apply includes_app_l.
Qed.

(** ** The cycle as the page sees it *)

Lemma adapters_all_fulfil (x : exchange) :
  ∃ l1 l2 l3,
    fetchCryptoCompareNews (world x) (news_feed x) = Normal l1 ∧
    fetchCoinGeckoNews (world x) (trending_feed x) = Normal l2 ∧
    fetchAlternativeNews (world x) (status_feed x) = Normal l3 ∧
    adapter_results x = [fulfilled l1; fulfilled l2; fulfilled l3] ∧
    merged (adapter_results x) = l1 ++ l2 ++ l3.
Proof.
  unfold adapter_results, merged.
  destruct (try_catch_empty (cryptoCompare_try (world x) (news_feed x)))
    as (l1 & H1 & _).
  destruct (try_catch_empty (coinGecko_try (world x) (trending_feed x)))
    as (l2 & H2 & _).
  destruct (try_catch_empty (statusUpdate_try (world x) (status_feed x)))
    as (l3 & H3 & _).
  exists l1, l2, l3. unfold fetchCryptoCompareNews, fetchCoinGeckoNews,
    fetchAlternativeNews. rewrite H1, H2, H3. simpl. by rewrite app_nil_r.
Qed.

(** X16: no adapter's promise is ever rejected, so the merge of a cycle
    sees all three; the merged list is the three adapters' lists in the
    order news feed, trending, status updates, and an adapter whose [try]
    block throws takes only its own articles out of it. *)
Theorem adapters_fail_independently (x : exchange) :
  ∃ l1 l2 l3,
    adapter_results x = [fulfilled l1; fulfilled l2; fulfilled l3] ∧
    merged (adapter_results x) = l1 ++ l2 ++ l3 ∧
    (throws (cryptoCompare_try (world x) (news_feed x)) →
     merged (adapter_results x) = l2 ++ l3) ∧
    (throws (coinGecko_try (world x) (trending_feed x)) →
     merged (adapter_results x) = l1 ++ l3) ∧
    (throws (statusUpdate_try (world x) (status_feed x)) →
     merged (adapter_results x) = l1 ++ l2).
Proof.
  destruct (adapters_all_fulfil x) as (l1 & l2 & l3 & H1 & H2 & H3 & Hresults & Hmerged).
  exists l1, l2, l3. split; [done|]. split; [done|].
  unfold fetchCryptoCompareNews, fetchCoinGeckoNews, fetchAlternativeNews in *.
  rewrite Hmerged. repeat split; intros [e He]; rewrite He in *; simpl in *.
  - by injection H1 as <-.
  - by injection H2 as <-.
  - injection H3 as <-. by rewrite app_nil_r.
Qed.

(** X17: when all three adapters come back empty, as they do when the
    network is down, the cycle does not take its error path: it ends
    normally with an empty list, the "no results" markup and the count 0,
    and the "last updated" time advances; the error message is not
    shown. *)
Theorem outage_shows_no_results (x : exchange) (c : controller) :
  fetchCryptoCompareNews (world x) (news_feed x) = Normal [] →
  fetchCoinGeckoNews (world x) (trending_feed x) = Normal [] →
  fetchAlternativeNews (world x) (status_feed x) = Normal [] →
  fetchNews_resume (adapter_results x) (clock x) c =
  (Normal (),
   set_isLoading false
     (set_newsContainer no_results
        (set_articleCount (Some 0%nat)
           (set_lastUpdate (Some (clock x)) (set_allNews [] c))))).
Proof.
  intros H1 H2 H3.
  rewrite fetchNews_resume_unfold, cycle_try_unfold.
  unfold merged, adapter_results. rewrite H1, H2, H3. cbn.
  unfold filterNews. run_action. cbn [allNews set_lastUpdate set_allNews].
  assert (∀ filter search, applyFilters [] filter search = Normal []) as ->.
  { intros filter search. unfold applyFilters.
    destruct (decide (filter ≠ "all")); cbn; by destruct (negb _). }
  unfold renderNews. by run_action.
Qed.

(** X18: the "last updated" time moves exactly when a resumed cycle gets
    through merge, sort and dedup: it is then the time of this cycle, even
    if rendering fails afterwards and the error message is shown; and it
    is left as it was when the sort or [removeDuplicates] throws. *)
Theorem lastUpdate_moves_when_the_list_is_built (results : list settled)
  (clock : Z) (c : controller) :
  lastUpdate (fetchNews_resume results clock c).2 =
  match Array_sort newest_first (merged results) with
  | Throw _ => lastUpdate c
  | Normal sorted =>
      match removeDuplicates sorted with
      | Throw _ => lastUpdate c
      | Normal _ => Some clock
      end
  end.
Proof.
  rewrite fetchNews_resume_unfold, cycle_try_unfold. cbv zeta.
  destruct (Array_sort _ _) as [sorted|e1]; [|done].
  destruct (removeDuplicates sorted) as [deduped|e2]; [|done].
  pose proof (filterNews_frame
    (set_lastUpdate (Some clock) (set_allNews deduped (set_allNews (merged results) c))))
    as (_ & _ & _ & _ & Hupdate).
  by destruct (filterNews _) as [[[]|e3] c'].
Qed.

(** X19: what each event leaves alone. Only the settling of the adapters
    changes the article list and the "last updated" time; typing in the
    search box and selecting a filter change neither the loading flag nor
    the number of cycles in flight, and record what was typed or selected;
    and a settling with no cycle in flight changes nothing. *)
Theorem events_leave_the_rest_alone (s : system) (e : event) :
  match e with
  | fetch_requested =>
      allNews (app (step s e)) = allNews (app s) ∧
      lastUpdate (app (step s e)) = lastUpdate (app s) ∧
      currentFilter (app (step s e)) = currentFilter (app s) ∧
      searchInput (app (step s e)) = searchInput (app s)
  | adapters_settled x =>
      (in_flight s = 0%nat → step s e = s) ∧
      currentFilter (app (step s e)) = currentFilter (app s) ∧
      searchInput (app (step s e)) = searchInput (app s)
  | search_changed text =>
      allNews (app (step s e)) = allNews (app s) ∧
      lastUpdate (app (step s e)) = lastUpdate (app s) ∧
      isLoading (app (step s e)) = isLoading (app s) ∧
      in_flight (step s e) = in_flight s ∧
      currentFilter (app (step s e)) = currentFilter (app s) ∧
      searchInput (app (step s e)) = text
  | filter_selected tag =>
      allNews (app (step s e)) = allNews (app s) ∧
      lastUpdate (app (step s e)) = lastUpdate (app s) ∧
      isLoading (app (step s e)) = isLoading (app s) ∧
      in_flight (step s e) = in_flight s ∧
      currentFilter (app (step s e)) = tag ∧
      searchInput (app (step s e)) = searchInput (app s)
  end.
Proof.
  destruct s as [c n]. destruct e as [|x|text|tag]; simpl.
  - unfold fetchNews_start. by destruct (isLoading c).
  - split; [by intros ->|]. destruct n as [|n]; [done|]. simpl.
    by destruct (resume_fields (adapter_results x) (clock x) c) as (_ & -> & ->).
  - by destruct (filterNews_frame (set_searchInput text c))
      as (-> & -> & -> & -> & ->).
  - by destruct (filterNews_frame (set_currentFilter tag c))
      as (-> & -> & -> & -> & ->).
Qed.

End Properties.

(** ** formatDate *)

Section DateProperties.
Context `{Host} `{Locale}.

Ltac div_lia := Z.div_mod_to_equations; lia.

Lemma formatDate_valid (v : value) (clock t : Z) :
  Date_new v = Normal (Some t) →
  formatDate v clock =
  let diffMs := clock - t in
  if diffMs / 60000 <? 60 then Normal (ago (diffMs / 60000) "min")
  else if diffMs / 3600000 <? 24 then Normal (ago (diffMs / 3600000) "hour")
  else if diffMs / 86400000 <? 7 then Normal (ago (diffMs / 86400000) "day")
  else Normal (toLocaleDateString (Some t) (year_differs (Some t) clock)).
Proof. unfold formatDate. intros ->. reflexivity. Qed.

(** X4: for a valid date, the unit depends on the age in milliseconds
    alone: under one hour the age is given in minutes, from one hour to
    under a day in hours (1 to 23), from one day to under a week in days
    (1 to 6), and from a week on as a calendar date; so "0 hours ago" and
    "0 days ago" never appear. *)
Theorem formatDate_units (v : value) (clock t : Z) :
  Date_new v = Normal (Some t) →
  let age := clock - t in
  (age < 3600000 →
     formatDate v clock = Normal (ago (age / 60000) "min") ∧ age / 60000 < 60) ∧
  (3600000 ≤ age < 86400000 →
     formatDate v clock = Normal (ago (age / 3600000) "hour") ∧
     1 ≤ age / 3600000 ≤ 23) ∧
  (86400000 ≤ age < 604800000 →
     formatDate v clock = Normal (ago (age / 86400000) "day") ∧
     1 ≤ age / 86400000 ≤ 6) ∧
  (604800000 ≤ age →
     formatDate v clock =
     Normal (toLocaleDateString (Some t) (year_differs (Some t) clock))).
Proof.
  intros Hdate. rewrite (formatDate_valid v clock t Hdate). cbv zeta.
  set (age := clock - t).
  assert (age = clock - t) as Hage0 by done. clearbody age.
  destruct (Z.ltb_spec (age / 60000) 60) as [Hmins|Hmins];
    [|destruct (Z.ltb_spec (age / 3600000) 24) as [Hhours|Hhours];
      [|destruct (Z.ltb_spec (age / 86400000) 7) as [Hdays|Hdays]]].
  all: split; [intros Hage; first [split; [done|div_lia] | div_lia]|].
  all: split; [intros Hage; first [split; [done|div_lia] | div_lia]|].
  all: split; [intros Hage; first [split; [done|div_lia] | div_lia]|].
  all: intros Hage; first [done | div_lia].
Qed.

(** X5: a date that lies in the future, however far, is never shown as a
    date: it comes out as a negative number of minutes "ago". *)
Theorem formatDate_future (v : value) (clock t : Z) :
  Date_new v = Normal (Some t) → clock < t →
  ∃ minutes, minutes < 0 ∧
    formatDate v clock = Normal (pretty minutes +:+ " mins ago").
Proof.
  intros Hdate Hfuture. exists ((clock - t) / 60000). split; [div_lia|].
  rewrite (formatDate_valid v clock t Hdate). cbv zeta.
  destruct (Z.ltb_spec ((clock - t) / 60000) 60); [|div_lia].
  unfold ago. destruct (decide _); [done|div_lia].
Qed.

(** X6: [formatDate] throws only where [new Date] does; on a value that
    makes an invalid date it returns what the engine prints for an invalid
    date, asked with the year. *)
Theorem formatDate_invalid (v : value) (clock : Z) :
  (throws (formatDate v clock) ↔ throws (Date_new v)) ∧
  (Date_new v = Normal None →
   formatDate v clock = Normal (toLocaleDateString None true)).
Proof.
  unfold formatDate. destruct (Date_new v) as [[t|]|e]; simpl.
  - split; [|done]. split; [|intros [e ?]; done].
    cbv zeta. repeat destruct (_ <? _); intros [e ?]; done.
  - split; [|done]. split; intros [e ?]; done.
  - split; [|done]. split; intros _; by exists e.
Qed.

End DateProperties.




(** ** Witnesses and counterexamples *)

Section Concrete.
Import Reference Examples.

(** C1, as stated, fails: the news feed returns a record without a title,
    [removeDuplicates] throws on it, and [allNews], which held the article
    of the previous cycle, now holds the article of the aborted one. *)
Lemma cycle_error_replaces_allNews :
  (cycle_try (adapter_results untitled_exchange) (clock untitled_exchange)
     showing_upgrade).1 = Throw TypeError ∧
  allNews showing_upgrade = [upgrade] ∧
  allNews (fetchNews_resume (adapter_results untitled_exchange)
             (clock untitled_exchange) showing_upgrade).2 ≠
  allNews showing_upgrade.
Proof. split; [|split]; [by vm_compute..|]. vm_compute. discriminate. Qed.

Lemma aborted_cycle_witness :
  (cycle_try (adapter_results untitled_exchange) (clock untitled_exchange)
     showing_upgrade).1 = Throw TypeError ∧
  newsContainer (fetchNews_resume (adapter_results untitled_exchange)
                   (clock untitled_exchange) showing_upgrade).2 = error_message.
Proof.
  assert ((cycle_try (adapter_results untitled_exchange) (clock untitled_exchange)
             showing_upgrade).1 = Throw TypeError) as Hthrow
    by (vm_compute; reflexivity).
  split; [exact Hthrow|].
  exact (proj1 (proj2 (aborted_cycle_shows_error_keeps_new_list _ _ _ _ Hthrow))).
Defined.

Lemma dedup_first_occurrences_witness :
  Forall text_title [rally; upgrade; rally_again] ∧
  removeDuplicates [rally; upgrade; rally_again] = Normal [rally; upgrade].
Proof.
  assert (Forall text_title [rally; upgrade; rally_again]) as Htext
    by (repeat constructor; eexists; reflexivity).
  split; [exact Htext|].
  exact (proj1 (dedup_keeps_first_occurrences _ Htext)).
Defined.

Lemma dedup_idempotent_witness :
  Forall text_title [rally; upgrade; rally_again] ∧
  ∃ out, removeDuplicates [rally; upgrade; rally_again] = Normal out ∧
         removeDuplicates out = Normal out.
Proof.
  assert (Forall text_title [rally; upgrade; rally_again]) as Htext
    by (repeat constructor; eexists; reflexivity).
  split; [exact Htext|].
  exact (proj2 (dedup_idempotent _) Htext).
Defined.



Lemma single_flight_witness :
  isLoading (app booted) = true ∧
  step booted fetch_requested = booted.
Proof.
  assert (isLoading (app booted) = true) as Hloading by reflexivity.
  split; [exact Hloading|].
  exact (proj1 (proj2 (proj2 (proj2
    (request_while_fetching_is_dropped [fetch_requested; search_changed "btc"] booted))
    Hloading))).
Defined.

Lemma degrades_witness :
  fetchCoinGeckoNews calm (responded {| status := 503; body := None |}) = Normal [].
Proof.
  exact (proj1 (proj2 (proj1 (proj2 (proj2 (proj2 (proj2 adapters_never_throw)))) calm))
           503).
Defined.

Lemma blank_search_witness :
  trim (toLowerCase "  ") = "" ∧
  applyFilters [rally; upgrade] "all" "  " = Normal [rally; upgrade].
Proof.
  assert (trim (toLowerCase "  ") = "") as Hblank by reflexivity.
  split; [exact Hblank|].
  exact (proj1 (proj2 (filter_all_empty_search_is_identity
                         [rally; upgrade] "  " constructed) Hblank)).
Defined.

(** A record without [published_on] makes an invalid date, [toISOString]
    throws inside the guard, and the whole feed degrades to the empty list. *)
Example record_without_date_empties_feed :
  cryptoCompare_try calm (payload [VObj [("title", VStr "No date")]]) = Throw RangeError ∧
  fetchCryptoCompareNews calm (payload [VObj [("title", VStr "No date")]]) = Normal [].
Proof. split; reflexivity. Qed.

(** C9, as stated, fails: a body of 250 characters gives a description of
    203, the first 200 and three dots. *)
Lemma long_body_description_exceeds_200 :
  fetchCryptoCompareNews calm long_feed = Normal [long_read] ∧
  description long_read = VStr (letters 200 +:+ "...") ∧
  String.length (letters 200 +:+ "...") = 203%nat ∧
  ¬ (String.length (letters 200 +:+ "...") ≤ 200)%nat.
Proof. repeat split; try (vm_compute; reflexivity). vm_compute. lia. Qed.

Lemma news_feed_description_witness :
  fetchCryptoCompareNews calm long_feed = Normal [long_read] ∧
  ∃ d, description long_read = VStr d ∧ (String.length d ≤ 203)%nat.
Proof.
  assert (fetchCryptoCompareNews calm long_feed = Normal [long_read]) as Hfetch
    by (vm_compute; reflexivity).
  split; [exact Hfetch|].
  destruct (news_feed_description calm long_feed [long_read] 0 long_read Hfetch eq_refl)
    as (r & data & raws & raw & body_ & _ & _ & _ & _ & _ & _ & Hlength).
  exact Hlength.
Defined.

(** ** Witnesses of the further properties *)

Lemma cycle_leaves_sorted_distinct_list_witness :
  Forall text_title (merged [fulfilled [rally_again; rally]; fulfilled [upgrade];
                             rejected TypeError]) ∧
  StronglySorted not_older
    (allNews (fetchNews_resume
                [fulfilled [rally_again; rally]; fulfilled [upgrade];
                 rejected TypeError] 0 showing_upgrade).2).
Proof.
  assert (Forall text_title (merged [fulfilled [rally_again; rally];
            fulfilled [upgrade]; rejected TypeError])) as Htext
    by (repeat constructor; eexists; reflexivity).
  assert (Forall dated (merged [fulfilled [rally_again; rally];
            fulfilled [upgrade]; rejected TypeError])) as Hdated
    by (repeat constructor; eexists; vm_compute; reflexivity).
  split; [exact Htext|].
  exact (proj1 (cycle_leaves_sorted_distinct_list _ 0 showing_upgrade Htext Hdated)).
Defined.

Lemma formatDate_units_witness :
  Date_new (VStr "2024-01-02T00:00:00Z") = Normal (Some 1704153600000) ∧
  formatDate (VStr "2024-01-02T00:00:00Z") 1704160800000 =
  Normal (ago ((1704160800000 - 1704153600000) / 3600000) "hour").
Proof.
  assert (Date_new (VStr "2024-01-02T00:00:00Z") = Normal (Some 1704153600000))
    as Hdate by (vm_compute; reflexivity).
  assert (3600000 ≤ 1704160800000 - 1704153600000 < 86400000) as Hage by lia.
  split; [exact Hdate|].
  exact (proj1 (proj1 (proj2 (formatDate_units _ 1704160800000 _ Hdate)) Hage)).
Defined.

Lemma formatDate_future_witness :
  Date_new (VStr "2024-01-02T00:00:00Z") = Normal (Some 1704153600000) ∧
  ∃ minutes, minutes < 0 ∧
    formatDate (VStr "2024-01-02T00:00:00Z") 1704150000000 =
    Normal (pretty minutes +:+ " mins ago").
Proof.
  assert (Date_new (VStr "2024-01-02T00:00:00Z") = Normal (Some 1704153600000))
    as Hdate by (vm_compute; reflexivity).
  assert (1704150000000 < 1704153600000) as Hfuture by lia.
  split; [exact Hdate|].
  exact (formatDate_future _ _ _ Hdate Hfuture).
Defined.

Lemma formatDate_invalid_witness :
  Date_new (VStr "soon") = Normal None ∧
  formatDate (VStr "soon") 1704153600000 = Normal (toLocaleDateString None true).
Proof.
  assert (Date_new (VStr "soon") = Normal None) as Hdate by (vm_compute; reflexivity).
  split; [exact Hdate|].
  exact (proj2 (formatDate_invalid (VStr "soon") 1704153600000) Hdate).
Defined.

Lemma news_feed_all_or_nothing_witness :
  ∃ l, fetchCryptoCompareNews calm (payload half_dated) = Normal l ∧ l = [].
Proof.
  destruct (news_feed_all_or_nothing calm
              {| status := 200; body := Some (VObj [("Data", VArr half_dated)]) |}
              (VObj [("Data", VArr half_dated)]) half_dated eq_refl eq_refl)
    as (l & Hfetch & _ & _ & Hundated).
  exists l. split; [exact Hfetch|].
  exact (Hundated 1%nat (VObj [("title", VStr "Undated")]) eq_refl eq_refl).
Defined.

Lemma news_feed_article_shape_witness :
  fetchCryptoCompareNews calm long_feed = Normal [long_read] ∧
  truthy (source long_read) = true.
Proof.
  assert (fetchCryptoCompareNews calm long_feed = Normal [long_read]) as Hfetch
    by (vm_compute; reflexivity).
  split; [exact Hfetch|].
  exact (proj1 (proj2 (proj2
    (news_feed_article_shape calm long_feed [long_read] 0 long_read Hfetch eq_refl)))).
Defined.

Lemma trending_article_shape_witness :
  ∃ l a, fetchCoinGeckoNews calm six_coins = Normal l ∧ l !! 4%nat = Some a ∧
         (length l ≤ 5)%nat ∧
         ∃ name SYMBOL, title a = VStr (name +:+ " (" +:+ SYMBOL +:+ ") is Trending!").
Proof.
  assert (∃ l a, fetchCoinGeckoNews calm six_coins = Normal l ∧
                 l !! 4%nat = Some a) as (l & a & Hfetch & Hlookup)
    by (eexists; eexists; split; vm_compute; reflexivity).
  exists l, a. split; [exact Hfetch|]. split; [exact Hlookup|].
  split; [exact (proj1 (trending_article_shape calm six_coins l Hfetch))|].
  exact (proj1 (proj2 (proj2 (trending_article_shape calm six_coins l Hfetch)
                         4%nat a Hlookup))).
Defined.

Lemma status_article_shape_witness :
  ∃ l a, fetchAlternativeNews calm release_feed = Normal l ∧ l !! 0%nat = Some a ∧
         is_nonempty_text (title a).
Proof.
  assert (∃ l a, fetchAlternativeNews calm release_feed = Normal l ∧
                 l !! 0%nat = Some a) as (l & a & Hfetch & Hlookup)
    by (eexists; eexists; split; vm_compute; reflexivity).
  exists l, a. split; [exact Hfetch|]. split; [exact Hlookup|].
  exact (proj1 (status_article_shape calm release_feed l 0 a Hfetch Hlookup)).
Defined.

Lemma dedup_returns_on_trending_and_status_witness :
  ∃ l2 l3, fetchCoinGeckoNews calm pepe_feed = Normal l2 ∧
           fetchAlternativeNews calm release_feed = Normal l3 ∧
           removeDuplicates (l3 ++ l2) = Normal (first_occurrences (l3 ++ l2)).
Proof.
  assert (∃ l, fetchCoinGeckoNews calm pepe_feed = Normal l) as [l2 Htrending]
    by (eexists; vm_compute; reflexivity).
  assert (∃ l, fetchAlternativeNews calm release_feed = Normal l) as [l3 Hstatus]
    by (eexists; vm_compute; reflexivity).
  assert (l3 ++ l2 ⊆ l2 ++ l3) as Hsub
    by (intros a; rewrite !elem_of_app; tauto).
  exists l2, l3. split; [exact Htrending|]. split; [exact Hstatus|].
  exact (dedup_returns_on_trending_and_status calm calm pepe_feed release_feed
           l2 l3 (l3 ++ l2) Htrending Hstatus Hsub).
Defined.

Lemma applyFilters_witness :
  applyFilters [rally; upgrade] "all" " ETHEREUM " = Normal [upgrade] ∧
  [upgrade] `sublist_of` [rally; upgrade].
Proof.
  assert (applyFilters [rally; upgrade] "all" " ETHEREUM " = Normal [upgrade])
    as Hfilters by (vm_compute; reflexivity).
  split; [exact Hfilters|].
  exact (proj1 (applyFilters_keeps_exactly_the_matches _ _ _ _ Hfilters)).
Defined.

Lemma category_filter_witness :
  applyFilters [rally; upgrade; long_read] "btc" "" = Normal [rally; upgrade] ∧
  rally ∈ [rally; upgrade].
Proof.
  assert (applyFilters [rally; upgrade; long_read] "btc" "" = Normal [rally; upgrade])
    as Hfilters by (vm_compute; reflexivity).
  split; [exact Hfilters|].
  refine (category_filter_keeps_tagged [rally; upgrade; long_read] [rally; upgrade]
            "btc" "" "BTC" _ "" rally Hfilters _ eq_refl _ eq_refl eq_refl _ eq_refl _).
  - discriminate.
  - by left.
  - repeat constructor. by eexists.
  - left. by left.
Defined.

Lemma search_witness :
  applyFilters [rally; upgrade] "all" " ETHEREUM " = Normal [upgrade] ∧
  upgrade ∈ [upgrade].
Proof.
  assert (applyFilters [rally; upgrade] "all" " ETHEREUM " = Normal [upgrade])
    as Hfilters by (vm_compute; reflexivity).
  split; [exact Hfilters|].
  refine (search_keeps_articles_containing_term [rally; upgrade] [upgrade]
            " ETHEREUM " _ "" "CryptoCompare" upgrade Hfilters _
            eq_refl eq_refl eq_refl _).
  - right. by left.
  - left. vm_compute. reflexivity.
Defined.

Lemma adapters_fail_independently_witness :
  throws (coinGecko_try (world untitled_exchange) (trending_feed untitled_exchange)) ∧
  ∃ l1 l3, merged (adapter_results untitled_exchange) = l1 ++ l3.
Proof.
  assert (throws (coinGecko_try (world untitled_exchange)
                    (trending_feed untitled_exchange))) as Hthrows
    by (by exists TypeError).
  split; [exact Hthrows|].
  destruct (adapters_fail_independently untitled_exchange)
    as (l1 & l2 & l3 & _ & _ & _ & Htrending & _).
  exists l1, l3. exact (Htrending Hthrows).
Defined.

Lemma outage_witness :
  fetchCryptoCompareNews (world network_down) (news_feed network_down) = Normal [] ∧
  newsContainer (fetchNews_resume (adapter_results network_down)
                   (clock network_down) showing_upgrade).2 = no_results.
Proof.
  split; [reflexivity|].
  exact (f_equal (λ r, newsContainer r.2)
           (outage_shows_no_results network_down showing_upgrade
              eq_refl eq_refl eq_refl)).
Defined.

Lemma filterNews_shows_witness :
  filterNews (set_searchInput "zebra" (set_allNews [rally; upgrade] constructed)) =
  (Normal (),
   set_newsContainer no_results
     (set_articleCount (Some 0%nat)
        (set_searchInput "zebra" (set_allNews [rally; upgrade] constructed)))).
Proof.
  exact (proj1 (proj2 (filterNews_shows_filtered_list
    (set_searchInput "zebra" (set_allNews [rally; upgrade] constructed))))
    eq_refl).
Defined.

Lemma events_witness :
  in_flight {| app := constructed; in_flight := 0 |} = 0%nat ∧
  step {| app := constructed; in_flight := 0 |} (adapters_settled network_down) =
  {| app := constructed; in_flight := 0 |}.
Proof.
  split; [reflexivity|].
  exact (proj1 (events_leave_the_rest_alone {| app := constructed; in_flight := 0 |}
                  (adapters_settled network_down)) eq_refl).
Defined.

End Concrete.
